(** * mens-amplio: the compositing and transition engine

    A shallow embedding of [led/effects/base.py] and [led/renderer.py],
    with the plasma layer of [led/effects/plasma.py] and the plasma
    playlist of [playlists.py].

    Conventions of the embedding:
    - Python floats are idealised as rationals ([Q]); rounding is not
      modelled.  A float division by zero raises, as in Python.
    - [time.time()] is an input of every function that reads the clock.
    - Python truthiness is written out: [None], [0.0], the empty string and
      the empty list are false.
    - A raised exception is the left injection of [result]. *)

From Stdlib Require Import QArith Qminmax Lia Lqa List String Sorted.
From stdpp Require Import base option gmap strings list.
Import ListNotations.

Local Open Scope Q_scope.

(** * Part I: the embedding *)

(** ** Exceptions and results *)

Inductive exn : Type :=
| AttributeError (name : string)
| IndexError
| KeyError (key : string)
| TypeError
| ValueError
| ZeroDivisionError
| NotImplementedError (msg : string)
| Exception (msg : string).

Definition result (A : Type) : Type := (exn + A)%type.

Definition ok {A : Type} (a : A) : result A := inr a.
Definition raise {A : Type} (e : exn) : result A := inl e.

Definition rbind {A B : Type} (c : result A) (k : A -> result B) : result B :=
  match c with
  | inl e => inl e
  | inr a => k a
  end.

Notation "'try!' x ':=' c 'in' k" := (rbind c (fun x => k))
  (at level 10, x pattern, c at level 100, k at level 200, only parsing).

(** ** Python truthiness and float comparisons *)

Definition Qltb (x y : Q) : bool := negb (Qle_bool y x).

(** [bool(x)] for [x] a float or [None]. *)
Definition truthy (x : option Q) : bool :=
  match x with
  | None => false
  | Some q => negb (Qeq_bool q 0)
  end.

(** ** Frames

    A frame is the array of LEDs, each a red, green, blue triple. *)

Definition LED : Type := (Q * Q * Q)%type.
Definition Frame : Type := list LED.

Definition led_eq (a b : LED) : Prop :=
  let '(r1, g1, b1) := a in
  let '(r2, g2, b2) := b in
  r1 == r2 /\ g1 == g2 /\ b1 == b2.

(** Equality of frames component by component, up to the representation
    of fractions. *)
Definition frame_eq (f1 f2 : Frame) : Prop := Forall2 led_eq f1 f2.

(** [numpy.multiply(frame, k, frame)] *)
Definition frame_scale (k : Q) (f : Frame) : Frame :=
  List.map (fun '(r, g, b) => (r * k, g * k, b * k)) f.

(** [numpy.add(f1, f2, f1)] for two arrays of one shape. *)
Fixpoint frame_add (f1 f2 : Frame) : Frame :=
  match f1, f2 with
  | (r1, g1, b1) :: t1, (r2, g2, b2) :: t2 =>
      (r1 + r2, g1 + g2, b1 + b2) :: frame_add t1 t2
  | _, _ => []
  end.

(** [numpy.multiply(f1, f2, f1)] for two arrays of one shape. *)
Fixpoint frame_mul (f1 f2 : Frame) : Frame :=
  match f1, f2 with
  | (r1, g1, b1) :: t1, (r2, g2, b2) :: t2 =>
      (r1 * r2, g1 * g2, b1 * b2) :: frame_mul t1 t2
  | _, _ => []
  end.

(** [numpy.zeros(frame.shape)] *)
Definition frame_zeros (f : Frame) : Frame :=
  List.map (fun _ => (0, 0, 0)) f.

(** ** Effect parameters *)

(** Modelled from the spec: the sensor reading [EEGInfo] of
    threads.HeadsetThread, which is not among the sources.  It carries the
    validity flag [on] and the two metrics a layer can respond to.  Python
    compares two such objects by identity; [eeg_ident] stands for the
    identity of the object. *)
Record EEGInfo : Type := {
  eeg_ident : nat;
  on : bool;
  attention : Q;
  meditation : Q
}.

(** [params.eeg != self.last_eeg] *)
Definition eeg_differs (e : EEGInfo) (last : option EEGInfo) : bool :=
  match last with
  | None => true
  | Some l => negb (Nat.eqb (eeg_ident e) (eeg_ident l))
  end.

(** [getattr(params.eeg, name)] *)
Definition eeg_getattr (e : EEGInfo) (name : string) : result Q :=
  if String.eqb name "attention" then ok (attention e)
  else if String.eqb name "meditation" then ok (meditation e)
  else raise (AttributeError name).

Record EffectParameters : Type := {
  time : Q;
  targetFrameRate : Q;
  eeg : option EEGInfo
}.

(** ** HeadsetResponsiveEffectLayer *)

Module HeadsetResponsiveEffectLayer.

Record t : Type := {
  respond_to : string;
  smooth_response_over_n_secs : Q;
  measurements : list Q;
  timestamps : list Q;
  last_eeg : option EEGInfo;
  last_response_level : option Q;
  fading_to : option Q
}.

Definition init (respond_to : string) (smooth_response_over_n_secs : Q) : t :=
  {| respond_to := respond_to;
     smooth_response_over_n_secs := smooth_response_over_n_secs;
     measurements := [];
     timestamps := [];
     last_eeg := None;
     last_response_level := None;
     fading_to := None |}.

Definition set_levels (self : t) (level target : option Q) : t :=
  {| respond_to := respond_to self;
     smooth_response_over_n_secs := smooth_response_over_n_secs self;
     measurements := measurements self;
     timestamps := timestamps self;
     last_eeg := last_eeg self;
     last_response_level := level;
     fading_to := target |}.

Definition set_history (self : t) (ms ts : list Q) : t :=
  {| respond_to := respond_to self;
     smooth_response_over_n_secs := smooth_response_over_n_secs self;
     measurements := ms;
     timestamps := ts;
     last_eeg := last_eeg self;
     last_response_level := last_response_level self;
     fading_to := fading_to self |}.

Definition set_last_eeg (self : t) (e : EEGInfo) : t :=
  {| respond_to := respond_to self;
     smooth_response_over_n_secs := smooth_response_over_n_secs self;
     measurements := measurements self;
     timestamps := timestamps self;
     last_eeg := Some e;
     last_response_level := last_response_level self;
     fading_to := fading_to self |}.

Definition start_fade (self : t) (new_level : Q) : t :=
  if negb (truthy (last_response_level self))
  then set_levels self (Some new_level) (fading_to self)
  else set_levels self (last_response_level self) (Some new_level).

Definition end_fade (self : t) : t :=
  set_levels self (fading_to self) None.

(** The [while idx < N] loop of [render]: [fuel] is [N - idx]. *)
Fixpoint trim_loop (fuel idx : nat) (self : t) : result t :=
  match fuel with
  | O => ok self
  | S fuel' =>
      match nth_error (timestamps self) 0, nth_error (timestamps self) idx with
      | Some t0, Some ti =>
          if Qltb (smooth_response_over_n_secs self) (t0 - ti)
          then ok (set_history self
                     (firstn (S idx) (measurements self))
                     (firstn (S idx) (timestamps self)))
          else trim_loop fuel' (S idx) self
      | _, _ => raise IndexError
      end
  end.

(** [sum(self.measurements)] *)
Definition sum (l : list Q) : Q := fold_left Qplus l 0.

(** The body of the first branch of [render], after the guard on
    [self.fading_to]: record the reading, trim, start a fade. *)
Definition take_reading (self : t) (e : EEGInfo) (now : Q) : result (t * option Q) :=
  try! m := eeg_getattr e (respond_to self) in
  let self := set_history self (m :: measurements self) (now :: timestamps self) in
  let self := set_last_eeg self e in
  let N := length (measurements self) in
  try! self := trim_loop N 0 self in
  let self :=
    if Nat.ltb 1 (length (measurements self))
    then start_fade self
           (sum (measurements self) * 1 / inject_Z (Z.of_nat (length (measurements self))))
    else self in
  ok (self, last_response_level self).

(** Is the first branch of [render] taken? *)
Definition new_reading (self : t) (params : EffectParameters) : option EEGInfo :=
  match eeg params with
  | Some e => if eeg_differs e (last_eeg self) && on e then Some e else None
  | None => None
  end.

(** [render] up to the call of [render_responsive]: the new state of the
    layer and the response level handed to [render_responsive]. *)
Definition render_level (self : t) (params : EffectParameters) (now : Q)
  : result (t * option Q) :=
  match new_reading self params with
  | Some e =>
      let self := if truthy (fading_to self) then end_fade self else self in
      take_reading self e now
  | None =>
      if truthy (fading_to self) then
        match timestamps self with
        | [] => raise IndexError
        | t0 :: _ =>
            let fade_progress := now - t0 in
            if Qle_bool 1 fade_progress then
              let self := end_fade self in
              ok (self, last_response_level self)
            else
              match fading_to self, last_response_level self with
              | Some target, Some level =>
                  ok (self, Some (fade_progress * target + (1 - fade_progress) * level))
              | _, _ => raise TypeError
              end
        end
      else ok (self, None)
  end.

(** [render]: [render_responsive] is the method of the subclass. *)
Definition render {Model : Type}
    (render_responsive : t -> Model -> EffectParameters -> Frame -> option Q -> result Frame)
    (self : t) (model : Model) (params : EffectParameters) (frame : Frame) (now : Q)
  : result (t * Frame) :=
  try! (self, response_level) := render_level self params now in
  try! frame := render_responsive self model params frame response_level in
  ok (self, frame).

(** The base class leaves [render_responsive] to its subclasses. *)
Definition render_responsive {Model : Type}
    (self : t) (model : Model) (params : EffectParameters) (frame : Frame)
    (response_level : option Q) : result Frame :=
  raise (NotImplementedError
    "Implement render_responsive() in your HeadsetResponsiveEffectLayer subclass").

End HeadsetResponsiveEffectLayer.

(** ResponsiveGreenHighRedLow: green when the level is high, red when it is
    low, blue without a signal. *)
Module ResponsiveGreenHighRedLow.

Definition render_responsive {Model : Type}
    (self : HeadsetResponsiveEffectLayer.t) (model : Model)
    (params : EffectParameters) (frame : Frame)
    (response_level : option Q) : result Frame :=
  match response_level with
  | None => ok (List.map (fun '(r, g, b) => (r, g, b + 1)) frame)
  | Some level =>
      ok (List.map (fun '(r, g, b) => (r + (1 - level), g + level, b)) frame)
  end.

End ResponsiveGreenHighRedLow.

(** ** GammaLayer *)

Module GammaLayer.

Record t : Type := {
  lutX : list Q;
  lutY : list Q
}.

(** [numpy.arange(0, 1, 0.01)] *)
Definition arange_percent : list Q :=
  List.map (fun i => inject_Z (Z.of_nat i) / 100) (seq 0 100).

(** [power] is [numpy.power] on one component. *)
Definition init (power : Q -> Q -> Q) (gamma : Q) : t :=
  {| lutX := arange_percent;
     lutY := List.map (fun x => power x gamma) arange_percent |}.

(** [numpy.interp] between the knot (x0, y0) and the knots that follow. *)
Fixpoint interp_from (x x0 y0 : Q) (xp fp : list Q) : Q :=
  match xp, fp with
  | x1 :: xp', y1 :: fp' =>
      if Qltb x x1 then y0 + (x - x0) * ((y1 - y0) / (x1 - x0))
      else interp_from x x1 y1 xp' fp'
  | _, _ => y0
  end.

(** [numpy.interp(x, xp, fp)] on one component; numpy refuses an empty
    table and tables of two lengths. *)
Definition interp (x : Q) (xp fp : list Q) : result Q :=
  match xp, fp with
  | x0 :: xp', y0 :: fp' =>
      if Nat.eqb (length xp') (length fp') then
        ok (if Qle_bool x x0 then y0 else interp_from x x0 y0 xp' fp')
      else raise ValueError
  | _, _ => raise ValueError
  end.

(** [numpy.interp] on every component of the array. *)
Fixpoint interp_frame (frame : Frame) (xp fp : list Q) : result Frame :=
  match frame with
  | [] => try! _ := interp 0 xp fp in ok []
  | (r, g, b) :: rest =>
      try! r := interp r xp fp in
      try! g := interp g xp fp in
      try! b := interp b xp fp in
      try! rest := interp_frame rest xp fp in
      ok ((r, g, b) :: rest)
  end.

Definition render (self : t) (frame : Frame) : result Frame :=
  interp_frame frame (lutX self) (lutY self).

(** Tables that [numpy.interp] accepts. *)
Definition well_formed (self : t) : bool :=
  match lutX self, lutY self with
  | _ :: xp, _ :: fp => Nat.eqb (length xp) (length fp)
  | _, _ => false
  end.

End GammaLayer.

(** ** Fades and the renderer *)

(** [bool(name)] for a playlist name or [None]. *)
Definition truthy_name (name : option string) : bool :=
  match name with
  | Some s => negb (String.eqb s "")
  | None => false
  end.

Section Engine.

(** Layers are references to layer objects; [Heap] is the state of all
    of them, so that a layer shared by two scenes is one object.  [render]
    of a layer either fills the frame or fails. *)
Context {Layer Heap Model Playlist : Type}.
Variable layer_render :
  Layer -> Model -> EffectParameters -> Frame -> Heap -> Heap * option Frame.
Variable transitionFadeTime : Layer -> Q.

(** The playlist class of playlist.py, which is not among the sources, by
    its two operations. *)
Variable selection : Playlist -> list Layer.
Variable advance : Playlist -> Playlist.

(** Modelled from the spec: [EffectLayer.safely_render], which the renderer
    calls on every layer and which base.py does not define.  It wraps
    [render] so that the failure of the layer is contained: the layer is
    skipped for the frame, the frame buffer is as sound as before for the
    layers that follow, and nothing is raised. *)
Definition safely_render (layer : Layer) (model : Model)
    (params : EffectParameters) (frame : Frame) (h : Heap) : Frame * Heap :=
  match layer_render layer model params frame h with
  | (h', Some frame') => (frame', h')
  | (h', None) => (frame, h')
  end.

(** [for layer in layers: layer.safely_render(model, params, frame)] *)
Fixpoint render_layers (layers : list Layer) (model : Model)
    (params : EffectParameters) (frame : Frame) (h : Heap) : Frame * Heap :=
  match layers with
  | [] => (frame, h)
  | layer :: rest =>
      let '(frame, h) := safely_render layer model params frame h in
      render_layers rest model params frame h
  end.

(** [bool(layers)] for a list of layers or [None]. *)
Definition truthy_layers (layers : option (list Layer)) : bool :=
  match layers with
  | Some (_ :: _) => true
  | _ => false
  end.

(** [if layers: for layer in layers: ...] *)
Definition render_scene (layers : option (list Layer)) (model : Model)
    (params : EffectParameters) (frame : Frame) (h : Heap) : Frame * Heap :=
  match layers with
  | Some l => if truthy_layers layers then render_layers l model params frame h
              else (frame, h)
  | None => (frame, h)
  end.

(** [MultiplierLayer(layer1, layer2).render]: the two layers are rendered
    by their own [render], each into a zeroed frame, and the product of
    the two frames is added to the frame.  A failure of either layer is
    the failure of the multiplier. *)
Definition MultiplierLayer_render (layer1 layer2 : Layer) (model : Model)
    (params : EffectParameters) (frame : Frame) (h : Heap) : Heap * option Frame :=
  let temp1 := frame_zeros frame in
  let temp2 := frame_zeros frame in
  match layer_render layer1 model params temp1 h with
  | (h, Some temp1) =>
      match layer_render layer2 model params temp2 h with
      | (h, Some temp2) => (h, Some (frame_add frame (frame_mul temp1 temp2)))
      | (h, None) => (h, None)
      end
  | (h, None) => (h, None)
  end.

(** The fades.  A two-step fade owns its two sub-fades. *)
Inductive Fade : Type :=
| Linear (done : bool) (startLayers endLayers : option (list Layer))
         (duration : Q) (start : option Q)
| TwoStep (done : bool) (startLayers endLayers : option (list Layer))
          (fade1 fade2 : Fade).

Definition done (fade : Fade) : bool :=
  match fade with
  | Linear d _ _ _ _ => d
  | TwoStep d _ _ _ _ => d
  end.

Definition LinearFade (startLayers endLayers : option (list Layer)) (duration : Q) : Fade :=
  Linear false startLayers endLayers duration None.

Definition TwoStepFade (fade1 fade2 : Fade) (startLayers endLayers : option (list Layer)) : Fade :=
  TwoStep false startLayers endLayers fade1 fade2.

Definition FastFade (startLayers endLayers : option (list Layer)) (duration : Q) : Fade :=
  let fade1 := LinearFade startLayers None (duration / 2) in
  let fade2 := LinearFade None endLayers (duration / 2) in
  TwoStepFade fade1 fade2 startLayers endLayers.

Definition TwoStepLinearFade (currLayers nextLayers finalLayers : option (list Layer))
    (duration_1 duration_2 : Q) : Fade :=
  let fade1 := LinearFade currLayers nextLayers duration_1 in
  let fade2 := LinearFade nextLayers finalLayers duration_2 in
  TwoStepFade fade1 fade2 currLayers finalLayers.

(** The start instant of a linear fade after the first statement of its
    [render]: [t_enter] is the clock at that statement. *)
Definition start_instant (start : option Q) (t_enter : Q) : Q :=
  match start with
  | Some s => if truthy start then s else t_enter
  | None => t_enter
  end.

(** [render] of a fade.  [t_enter] is the clock read when the start instant
    is captured, [t_now] the clock read for [percentDone]. *)
Fixpoint Fade_render (fade : Fade) (model : Model) (params : EffectParameters)
    (frame : Frame) (t_enter t_now : Q) (h : Heap) : result (Fade * Frame * Heap) :=
  match fade with
  | Linear d startLayers endLayers duration start =>
      let s := start_instant start t_enter in
      let '(frame, h) := render_scene endLayers model params frame h in
      if Qeq_bool duration 0 then raise ZeroDivisionError
      else
        let percentDone := (t_now - s) / duration in
        if Qle_bool 1 percentDone then
          ok (Linear true startLayers endLayers duration (Some s), frame, h)
        else
          let frame := frame_scale percentDone frame in
          if truthy_layers startLayers then
            let frame2 := frame_zeros frame in
            let '(frame2, h) := render_scene startLayers model params frame2 h in
            let frame2 := frame_scale (1 - percentDone) frame2 in
            ok (Linear d startLayers endLayers duration (Some s),
                frame_add frame frame2, h)
          else
            ok (Linear d startLayers endLayers duration (Some s), frame, h)
  | TwoStep d startLayers endLayers fade1 fade2 =>
      if negb (done fade1) then
        try! (fade1, frame, h) := Fade_render fade1 model params frame t_enter t_now h in
        ok (TwoStep d startLayers endLayers fade1 fade2, frame, h)
      else
        try! (fade2, frame, h) := Fade_render fade2 model params frame t_enter t_now h in
        ok (TwoStep (done fade2) startLayers endLayers fade1 fade2, frame, h)
  end.

(** *** The renderer *)

Record Renderer : Type := {
  playlists : gmap string Playlist;
  activePlaylist : option string;
  nextPlaylist : option string;
  useFastFades : bool;
  fade : option Fade;
  gammaLayer : GammaLayer.t
}.

Definition set_fade (self : Renderer) (f : option Fade) : Renderer :=
  {| playlists := playlists self;
     activePlaylist := activePlaylist self;
     nextPlaylist := nextPlaylist self;
     useFastFades := useFastFades self;
     fade := f;
     gammaLayer := gammaLayer self |}.

Definition set_names (self : Renderer) (active next : option string) : Renderer :=
  {| playlists := playlists self;
     activePlaylist := active;
     nextPlaylist := next;
     useFastFades := useFastFades self;
     fade := fade self;
     gammaLayer := gammaLayer self |}.

Definition set_playlists (self : Renderer) (ps : gmap string Playlist) : Renderer :=
  {| playlists := ps;
     activePlaylist := activePlaylist self;
     nextPlaylist := nextPlaylist self;
     useFastFades := useFastFades self;
     fade := fade self;
     gammaLayer := gammaLayer self |}.

(** [Renderer(playlists, activePlaylist, useFastFades, gamma)] *)
Definition Renderer_init (power : Q -> Q -> Q) (playlists : gmap string Playlist)
    (activePlaylist : option string) (useFastFades : bool) (gamma : Q)
  : result Renderer :=
  if decide (playlists = ∅)
  then raise (Exception "Can't define a renderer without any playlists")
  else
    try! active :=
      (if truthy_name activePlaylist then ok activePlaylist
       else match map_to_list playlists with
            | [(name, _)] => ok (Some name)
            | _ => raise (Exception
                "Can't define multi-playlist renderer without specifying active playlist")
            end) in
    ok {| playlists := playlists;
          activePlaylist := active;
          nextPlaylist := None;
          useFastFades := useFastFades;
          fade := None;
          gammaLayer := GammaLayer.init power gamma |}.

Definition _get (self : Renderer) (playlistKey : option string) : result (option Playlist) :=
  match playlistKey with
  | Some key =>
      if truthy_name playlistKey then
        match playlists self !! key with
        | Some p => ok (Some p)
        | None => raise (KeyError key)
        end
      else ok None
  | None => ok None
  end.

Definition _active (self : Renderer) : result (option Playlist) :=
  _get self (activePlaylist self).

Definition _next (self : Renderer) : result (option Playlist) :=
  _get self (nextPlaylist self).

(** [playlist.selection()] on what [_get] returned: [None] has no such
    method. *)
Definition selection_of (playlist : option Playlist) : result (list Layer) :=
  match playlist with
  | Some p => ok (selection p)
  | None => raise (AttributeError "selection")
  end.

Definition Renderer_render (self : Renderer) (model : Model)
    (params : EffectParameters) (frame : Frame) (t_enter t_now : Q) (h : Heap)
  : result (Renderer * Frame * Heap) :=
  try! (self, frame, h) :=
    match fade self with
    | Some f =>
        try! (f, frame, h) := Fade_render f model params frame t_enter t_now h in
        if done f then
          let self :=
            if truthy_name (nextPlaylist self)
            then set_names self (nextPlaylist self) None
            else self in
          ok (set_fade self None, frame, h)
        else ok (set_fade self (Some f), frame, h)
    | None =>
        if truthy_name (activePlaylist self) then
          try! active := _active self in
          try! layers := selection_of active in
          let '(frame, h) := render_layers layers model params frame h in
          ok (self, frame, h)
        else ok (self, frame, h)
    end in
  try! frame := GammaLayer.render (gammaLayer self) frame in
  ok (self, frame, h).

(** [playlist.advance()] on the playlist stored under [key].  The map
    holds the state of each playlist under its name, one playlist per
    name: a single playlist object stored under two names, which
    [advance] would move under both, is not represented. *)
Definition advance_at (self : Renderer) (key : string) : Renderer :=
  match playlists self !! key with
  | Some p => set_playlists self (<[key := advance p]> (playlists self))
  | None => self
  end.

Definition advanceCurrentPlaylist (self : Renderer) (fadeTime : Q) : result Renderer :=
  try! active := _active self in
  match active, activePlaylist self with
  | Some p, Some key =>
      let selection0 := selection p in
      let p := advance p in
      let self := set_playlists self (<[key := p]> (playlists self)) in
      ok (set_fade self (Some (LinearFade (Some selection0) (Some (selection p)) fadeTime)))
  | _, _ =>
      raise (Exception "Can't advance playlist - no playlist is currently active")
  end.

(** [max(l)] of a list of floats *)
Definition max_list (l : list Q) : result Q :=
  match l with
  | [] => raise ValueError
  | x :: rest => ok (fold_left (fun m y => if Qltb m y then y else m) rest x)
  end.

Definition _fadeTimeForTransition (playlist : Playlist) : result Q :=
  max_list (List.map transitionFadeTime (selection playlist)).

Definition swapPlaylists (self : Renderer) (nextPlaylist : option string)
    (intermediatePlaylist : option string) (advanceAfterFadeOut : bool)
    (fadeTime : Q) : result Renderer :=
  try! active := _active self in
  let self := set_names self (activePlaylist self) nextPlaylist in
  try! self :=
    (if useFastFades self then
       try! startLayers := selection_of active in
       try! next := _next self in
       try! endLayers := selection_of next in
       ok (set_fade self (Some (FastFade (Some startLayers) (Some endLayers) fadeTime)))
     else if truthy_name intermediatePlaylist then
       try! middle := _get self intermediatePlaylist in
       try! currLayers := selection_of active in
       try! nextLayers := selection_of middle in
       try! next := _next self in
       try! finalLayers := selection_of next in
       try! duration_2 :=
         match middle with
         | Some m => _fadeTimeForTransition m
         | None => raise (AttributeError "selection")
         end in
       let self := set_fade self
         (Some (TwoStepLinearFade (Some currLayers) (Some nextLayers)
                  (Some finalLayers) (1#4) duration_2)) in
       ok (if advanceAfterFadeOut
           then match intermediatePlaylist with
                | Some key => advance_at self key
                | None => self
                end
           else self)
     else
       try! startLayers := selection_of active in
       try! next := _next self in
       try! endLayers := selection_of next in
       ok (set_fade self (Some (LinearFade (Some startLayers) (Some endLayers) fadeTime)))) in
  if advanceAfterFadeOut then
    match active, activePlaylist self with
    | Some _, Some key => ok (advance_at self key)
    | _, _ => raise (AttributeError "advance")
    end
  else ok self.

End Engine.

Arguments Fade : clear implicits.
Arguments Renderer : clear implicits.

(** ** playlists.py: the plasma playlist *)

Module Playlists.

(** The layers of a routine of [make_plasma_playlist]: the drifter it is
    given, and the two layers it constructs, by the arguments of their
    constructors. *)
Inductive layer (Drifter : Type) : Type :=
| Given (d : Drifter)
| PlasmaLayer (zoom : Q)
| RainLayer (dropEvery : Q).

Arguments Given {Drifter} d.
Arguments PlasmaLayer {Drifter} zoom.
Arguments RainLayer {Drifter} dropEvery.

(** The body of the loop of [make_plasma_playlist].  [random] is the
    sequence of values that [random.random()] returns and [n] the number
    of values drawn so far; a routine draws two. *)
Fixpoint routines {Drifter : Type} (drifters : list Drifter)
    (random : nat -> Q) (n : nat) : list (list (layer Drifter)) :=
  match drifters with
  | [] => []
  | d :: rest =>
      let rand := random n in
      let routine := [Given d; PlasmaLayer ((2#10) + rand / 2)] in
      let routine :=
        if Qltb (random (S n)) 1
        then routine ++ [RainLayer (2 + rand * 3)]
        else routine in
      routine :: routines rest random (S (S n))
  end.

(** [make_plasma_playlist(drifters)]: the two arguments it gives to
    [Playlist], the routines and the shuffle flag. *)
Definition make_plasma_playlist {Drifter : Type} (drifters : list Drifter)
    (random : nat -> Q) (n : nat) : list (list (layer Drifter)) * bool :=
  (routines drifters random n, true).

End Playlists.

(** ** Layers that read the model *)

Module Geometry.

(** Modelled from the spec: the geometric model, which is not among the
    sources, as far as the layers read it: the array [edgeCenters] of the
    positions of the LEDs.  Python compares two models by identity;
    [model_ident] stands for the identity of the object. *)
Record Model : Type := {
  model_ident : nat;
  edgeCenters : list LED
}.

End Geometry.

(** numpy broadcasting of a one-dimensional array to [n] entries: an array
    of [n] entries as it is, an array of one entry repeated. *)
Definition stretch {A : Type} (n : nat) (l : list A) : result (list A) :=
  if Nat.eqb (length l) n then ok l
  else match l with
       | [c] => ok (repeat c n)
       | _ => raise ValueError
       end.

(** The length to which numpy broadcasts two one-dimensional arrays: they
    are of one length, or one of them has a single entry. *)
Definition broadcast_length (a b : nat) : result nat :=
  if Nat.eqb a b then ok a
  else if Nat.eqb a 1 then ok b
  else if Nat.eqb b 1 then ok a
  else raise ValueError.

Module RGBLayer.

(** [frame[:] = model.edgeCenters[:]] *)
Definition render (model : Geometry.Model) (params : EffectParameters) (frame : Frame)
  : result Frame :=
  stretch (length frame) (Geometry.edgeCenters model).

End RGBLayer.

Module PlasmaLayer.

Record t : Type := {
  zoom : Q;
  octaves : nat;
  color : option LED;
  time_const : Q;
  modelCache : option nat;
  scaledX : option (list Q);
  scaledY : option (list Q);
  scaledZ : option (list Q)
}.

(** [PlasmaLayer(color, zoom)]; the scaled coordinates are attributes that
    the first [render] sets. *)
Definition init (color : option LED) (zoom : Q) : t :=
  {| zoom := zoom;
     octaves := 3;
     color := color;
     time_const := - (3#2);
     modelCache := None;
     scaledX := None;
     scaledY := None;
     scaledZ := None |}.

(** Rounding towards zero. *)
Definition trunc (q : Q) : Z := Z.quot (Qnum q) (Zpos (Qden q)).

(** [math.fmod(x, y)] for [y] other than zero. *)
Definition fmod (x y : Q) : Q := x - inject_Z (trunc (x / y)) * y.

(** [if model is not self.modelCache: ...] *)
Definition cache_model (self : t) (model : Geometry.Model) : t :=
  let hit :=
    match modelCache self with
    | Some ident => Nat.eqb ident (Geometry.model_ident model)
    | None => false
    end in
  if hit then self
  else
    let s := zoom self in
    {| zoom := zoom self;
       octaves := octaves self;
       color := color self;
       time_const := time_const self;
       modelCache := Some (Geometry.model_ident model);
       scaledX := Some (List.map (fun '(x, _, _) => s * x) (Geometry.edgeCenters model));
       scaledY := Some (List.map (fun '(_, y, _) => s * y) (Geometry.edgeCenters model));
       scaledZ := Some (List.map (fun '(_, _, z) => s * z) (Geometry.edgeCenters model)) |}.

Fixpoint zip3 (xs ys zs : list Q) : list (Q * Q * Q) :=
  match xs, ys, zs with
  | x :: xs, y :: ys, z :: zs => (x, y, z) :: zip3 xs ys zs
  | _, _, _ => []
  end.

(** [self.ufunc(xs, ys, zs, octaves)]: the function [pnoise3] of the noise
    library on every entry, the three arrays broadcast to one length. *)
Definition ufunc (pnoise3 : Q -> Q -> Q -> nat -> Q)
    (xs ys zs : list Q) (octaves : nat) : result (list Q) :=
  try! n := broadcast_length (length xs) (length ys) in
  try! n := broadcast_length n (length zs) in
  try! xs := stretch n xs in
  try! ys := stretch n ys in
  try! zs := stretch n zs in
  ok (List.map (fun '(x, y, z) => pnoise3 x y z octaves) (zip3 xs ys zs)).

(** The rows of the frame, each with its entry of a column that numpy
    broadcasts to the rows. *)
Definition with_column (frame : Frame) (column : list Q) : result (list (LED * Q)) :=
  try! column := stretch (length frame) column in
  ok (combine frame column).

Definition render (pnoise3 : Q -> Q -> Q -> nat -> Q)
    (self : t) (model : Geometry.Model) (params : EffectParameters) (frame : Frame)
  : result (t * Frame) :=
  let z0 := fmod (time params * time_const self) 1024 in
  let self := cache_model self model in
  match scaledX self, scaledY self, scaledZ self with
  | Some xs, Some ys, Some zs =>
      try! noise := ufunc pnoise3 xs ys (List.map (fun z => z + z0) zs) (octaves self) in
      let noise := List.map (fun n => n + (35#100)) noise in
      let noise := List.map (fun n => n * (12#10)) noise in
      try! rows := with_column frame noise in
      match color self with
      | None =>
          ok (self, List.map (fun '((r, g, b), n) => (r * n, g * n, b * n)) rows)
      | Some (cr, cg, cb) =>
          ok (self, List.map (fun '((r, g, b), n) =>
                                (r + cr * n, g + cg * n, b + cb * n)) rows)
      end
  | _, _, _ => raise (AttributeError "scaledX")
  end.

End PlasmaLayer.

(** * Part II: the vocabulary of the statements *)

(** ** The responsive layer *)

Module ResponsiveTerms.
Import HeadsetResponsiveEffectLayer.

Definition reading (ident : nat) (value : Q) : EEGInfo :=
  {| eeg_ident := ident; on := true; attention := value; meditation := 0 |}.

Definition params_with (e : option EEGInfo) (now : Q) : EffectParameters :=
  {| time := now; targetFrameRate := 59; eeg := e |}.

(** Two readings, 0.4 at t = 100 and 0.6 at t = 101, given to a fresh
    layer that smooths over five seconds. *)
Definition after_two_readings : result t :=
  try! (s1, _) := render_level (init "attention" 5)
                    (params_with (Some (reading 1 (4#10))) 100) 100 in
  try! (s2, _) := render_level s1
                    (params_with (Some (reading 2 (6#10))) 101) 101 in
  ok s2.

(** The state those two readings leave: the level is their mean and no
    fade is pending. *)
Definition settled : t :=
  {| respond_to := "attention";
     smooth_response_over_n_secs := 5;
     measurements := [6#10; 4#10];
     timestamps := [101; 100];
     last_eeg := Some (reading 2 (6#10));
     last_response_level := Some (100#200);
     fading_to := None |}.

(** The mean the layer takes of two measurements, newest first. *)
Definition mean2 (newest oldest : Q) : Q :=
  sum [newest; oldest] * 1 / inject_Z (Z.of_nat 2).

(** The history as the pairs (measurement, timestamp), newest first. *)
Definition history (self : t) : list (Q * Q) :=
  combine (measurements self) (timestamps self).

(** An entry is stale when its age exceeds the smoothing window. *)
Definition stale (window newest : Q) (entry : Q * Q) : bool :=
  Qltb window (newest - snd entry).

Definition within (window newest : Q) (entry : Q * Q) : bool :=
  negb (stale window newest entry).

(** Walking from the newest entry: the number of entries up to and
    including the first stale one. *)
Fixpoint keep_count (window newest : Q) (ts : list Q) : nat :=
  match ts with
  | [] => O
  | ti :: rest =>
      if Qltb window (newest - ti) then 1%nat
      else S (keep_count window newest rest)
  end.

(** Timestamps newest first: no entry is younger than an earlier one. *)
Definition newest_first (ts : list Q) : Prop :=
  StronglySorted (fun newer older => older <= newer) ts.

(** A layer at level 0.0 that is fading to 0.0. *)
Definition at_zero : t :=
  {| respond_to := "attention";
     smooth_response_over_n_secs := 5;
     measurements := [0; 0];
     timestamps := [101; 100];
     last_eeg := Some (reading 2 0);
     last_response_level := Some 0;
     fading_to := Some 0 |}.

(** A layer at level 0.5 with the pending target 0.0, smoothing over half
    a second. *)
Definition fading_to_zero : t :=
  {| respond_to := "attention";
     smooth_response_over_n_secs := 1#2;
     measurements := [0; 0];
     timestamps := [101; 100];
     last_eeg := Some (reading 2 0);
     last_response_level := Some (1#2);
     fading_to := Some 0 |}.

(** The states the layer keeps to: the two lists of the history are of one
    length, and a pending fade has a timestamp to run from and a level to
    run from. *)
Definition consistent (self : t) : Prop :=
  length (measurements self) = length (timestamps self) /\
  (truthy (fading_to self) = true ->
   timestamps self <> [] /\ truthy (last_response_level self) = true).

(** [sum(l) * 1.0 / len(l)] *)
Definition mean (l : list Q) : Q :=
  sum l * 1 / inject_Z (Z.of_nat (length l)).


End ResponsiveTerms.

(** ** Fades and the renderer *)

Section EngineTerms.

Context {Layer Heap Model Playlist : Type}.
Variable layer_render :
  Layer -> Model -> EffectParameters -> Frame -> Heap -> Heap * option Frame.
Variable selection : Playlist -> list Layer.

Local Abbreviation Fade := (Fade Layer).
Local Abbreviation Renderer := (Renderer Layer Playlist).
Local Abbreviation Fade_render := (Fade_render layer_render).
Local Abbreviation Renderer_render := (Renderer_render layer_render selection).

(** A two-step fade as its constructor leaves it: [TwoStepFade] over a
    second sub-fade that is not done, [FastFade], [TwoStepLinearFade]. *)
Inductive fresh_two_step : Fade -> Prop :=
| fresh_TwoStepFade fade1 fade2 startLayers endLayers :
    done fade2 = false ->
    fresh_two_step (TwoStepFade fade1 fade2 startLayers endLayers)
| fresh_FastFade startLayers endLayers duration :
    fresh_two_step (FastFade startLayers endLayers duration)
| fresh_TwoStepLinearFade currLayers nextLayers finalLayers duration_1 duration_2 :
    fresh_two_step
      (TwoStepLinearFade currLayers nextLayers finalLayers duration_1 duration_2).

(** [rendered f f']: [f'] is [f] after some calls of [render] that
    returned. *)
Inductive rendered : Fade -> Fade -> Prop :=
| rendered_none f : rendered f f
| rendered_call f f' f'' model params frame t_enter t_now h frame' h' :
    rendered f f' ->
    Fade_render f' model params frame t_enter t_now h = ok (f'', frame', h') ->
    rendered f f''.

(** The done flag of a two-step fade is that of its second sub-fade, which
    is not done before the first one is. *)
Definition two_step_invariant (f : Fade) : Prop :=
  match f with
  | TwoStep d _ _ fade1 fade2 =>
      d = done fade2 /\ (done fade2 = true -> done fade1 = true)
  | Linear _ _ _ _ _ => False
  end.

(** [waiting r r']: [r'] is [r] after some calls of [render] that returned
    and left a fade in place. *)
Inductive waiting : Renderer -> Renderer -> Prop :=
| waiting_none r : waiting r r
| waiting_call r r' r'' model params frame t_enter t_now h frame' h' :
    waiting r r' ->
    Renderer_render r' model params frame t_enter t_now h = ok (r'', frame', h') ->
    fade r'' <> None ->
    waiting r r''.

(** A fade whose done flags agree: the flag of every two-step fade in it
    is the flag of that fade's second sub-fade. *)
Fixpoint coherent (f : Fade) : Prop :=
  match f with
  | Linear _ _ _ _ _ => True
  | TwoStep d _ _ fade1 fade2 =>
      d = done fade2 /\ coherent fade1 /\ coherent fade2
  end.

(** What a call of [render] of a fade leaves outside the fade: the frame
    and the state of the layers. *)
Definition frame_and_heap (r : result (Fade * Frame * Heap)) : result (Frame * Heap) :=
  try! (_, frame, h) := r in ok (frame, h).

(** [renders r r']: [r'] is [r] after some calls of [render] that
    returned. *)
Inductive renders : Renderer -> Renderer -> Prop :=
| renders_none r : renders r r
| renders_call r r' r'' model params frame t_enter t_now h frame' h' :
    renders r r' ->
    Renderer_render r' model params frame t_enter t_now h = ok (r'', frame', h') ->
    renders r r''.

(** The start instant that the linear fade of the renderer has stored. *)
Definition fade_start (r : Renderer) : option Q :=
  match fade r with
  | Some (Linear _ _ _ _ start) => start
  | _ => None
  end.

End EngineTerms.

(** ** A small installation *)

Module Installation.

(** Three of the layer classes of base.py.  [EffectLayer] is the abstract
    base class: its [render] raises NotImplementedError. *)
Inductive layer : Type :=
| WhiteOutLayer
| BlinkyLayer
| EffectLayer.

(** The one mutable attribute among these layers: [on] of the
    BlinkyLayer object. *)
Definition heap : Type := bool.

Definition layer_render (l : layer) (model : unit) (params : EffectParameters)
    (frame : Frame) (h : heap) : heap * option Frame :=
  match l with
  | WhiteOutLayer =>
      (h, Some (frame_add frame (List.map (fun _ => (1, 1, 1)) frame)))
  | BlinkyLayer =>
      let on := negb h in
      let k := if on then 1 else 0 in
      (on, Some (List.map (fun '(r, g, b) => (r + k, g + k, b + k)) frame))
  | EffectLayer => (h, None)
  end.

(** Modelled from the spec: the playlist of playlist.py, which is not among
    the sources, without shuffle: an ordered collection of scenes and a
    cursor; [advance] increments the cursor and wraps around. *)
Record playlist : Type := {
  scenes : list (list layer);
  cursor : nat
}.

Definition selection (p : playlist) : list layer :=
  nth (cursor p) (scenes p) [].

Definition advance (p : playlist) : playlist :=
  {| scenes := scenes p;
     cursor := Nat.modulo (S (cursor p)) (length (scenes p)) |}.

(** [numpy.power(x, gamma)] at gamma = 2. *)
Definition power (x gamma : Q) : Q := x * x.

Definition params0 : EffectParameters :=
  {| time := 100; targetFrameRate := 59; eeg := None |}.

Definition A : playlist :=
  {| scenes := [[WhiteOutLayer; EffectLayer; BlinkyLayer]; [BlinkyLayer]]; cursor := 0 |}.

Definition B : playlist :=
  {| scenes := [[WhiteOutLayer]]; cursor := 0 |}.

Definition two_playlists : gmap string playlist :=
  <["A"%string := A]> (<["B"%string := B]> ∅).

Definition renderer0 : Renderer layer playlist :=
  {| playlists := two_playlists;
     activePlaylist := Some "A"%string;
     nextPlaylist := None;
     useFastFades := false;
     fade := None;
     gammaLayer := GammaLayer.init power 2 |}.

Definition frame0 : Frame := [(0, 0, 0); (1#2, 0, 0)].

(** A two-second fade from the white-out to the blinking layer, started at
    t = 100. *)
Definition cross_fade : Fade layer :=
  Linear false (Some [WhiteOutLayer]) (Some [BlinkyLayer]) 2 (Some 100).


(** A fast fade of two seconds, and what three calls of [render] make of
    it: at t = 100, at t = 101 and at t = 101.5. *)
Definition fast0 : Fade layer :=
  FastFade (Some [WhiteOutLayer]) (Some [BlinkyLayer]) 2.

Definition fade_after (f : Fade layer) (t : Q) : Fade layer :=
  match Fade_render layer_render f tt params0 frame0 t t false with
  | inr (f', _, _) => f'
  | inl _ => f
  end.

Definition fast1 : Fade layer := Eval vm_compute in fade_after fast0 100.

Definition fast2 : Fade layer := Eval vm_compute in fade_after fast1 101.

Definition fast3 : Fade layer := Eval vm_compute in fade_after fast2 (101 + (1#2)).

(** The renderer after [swapPlaylists("B", fadeTime=2)]. *)
Definition swapped : Renderer layer playlist :=
  match swapPlaylists (fun _ : layer => 1#2) selection advance renderer0
          (Some "B"%string) None true 2 with
  | inr r => r
  | inl _ => renderer0
  end.

(** ... and with its fade started at t = 100. *)
Definition swapping : Renderer layer playlist :=
  set_fade swapped
    (Some (Linear false (Some (selection A)) (Some (selection B)) 2 (Some 100))).

(** From playlist A, swap to B, then advance within A before any frame is
    rendered: the fade now runs between two scenes of A, and the frame
    that completes it makes B the active playlist. *)
Definition swap_then_advance : result (Renderer layer playlist * Renderer layer playlist) :=
  try! r1 := advanceCurrentPlaylist selection advance swapped 1 in
  try! (r2, _, h) :=
    Renderer_render layer_render selection r1 tt params0 frame0 100 100 false in
  try! (r3, _, _) :=
    Renderer_render layer_render selection r2 tt params0 frame0 101 101 h in
  ok (r2, r3).

(** A second frame of the shape of [frame0]. *)
Definition frame1 : Frame := [(1#4, 1#4, 1#4); (0, 1, 0)].

(** The [transitionFadeTime] of the three layers. *)
Definition transition_times (l : layer) : Q :=
  match l with
  | WhiteOutLayer => 1#2
  | BlinkyLayer => 2
  | EffectLayer => 1
  end.

(** The renderer after the frame that completes the swap. *)
Definition swap_done : Renderer layer playlist :=
  match Renderer_render layer_render selection swapping tt params0 frame0 102 102 false with
  | inr (r, _, _) => r
  | inl _ => swapping
  end.

End Installation.

(** * Part III: properties *)

(** ** Results, comparisons, truthiness *)

Lemma rbind_ok {A B : Type} (a : A) (k : A -> result B) : rbind (ok a) k = k a.
Proof. reflexivity. Qed.

Lemma rbind_raise {A B : Type} (e : exn) (k : A -> result B) :
  rbind (raise e) k = raise e.
Proof. reflexivity. Qed.

Lemma Qltb_lt (x y : Q) : Qltb x y = true <-> x < y.
Proof.
  unfold Qltb. rewrite negb_true_iff. split.
  - intros H. apply Qnot_le_lt. intros Hle.
    apply Qle_bool_iff in Hle. congruence.
  - intros H. destruct (Qle_bool y x) eqn:E; [|reflexivity].
    apply Qle_bool_iff in E. exfalso. exact (Qlt_not_le _ _ H E).
Qed.

Lemma Qltb_ge (x y : Q) : Qltb x y = false <-> y <= x.
Proof.
  unfold Qltb. rewrite negb_false_iff. apply Qle_bool_iff.
Qed.

Lemma truthy_zero (q : Q) : q == 0 -> truthy (Some q) = false.
Proof.
  intros H. simpl. apply negb_false_iff. now apply Qeq_bool_iff.
Qed.

Lemma truthy_nonzero (q : Q) : ~ q == 0 -> truthy (Some q) = true.
Proof.
  intros H. simpl. apply negb_true_iff.
  destruct (Qeq_bool q 0) eqn:E; [|reflexivity].
  apply Qeq_bool_iff in E. contradiction.
Qed.

(** ** The responsive layer *)

Module ResponsiveProperties.
Import HeadsetResponsiveEffectLayer ResponsiveTerms.

Lemma after_two_readings_settled : after_two_readings = ok settled.
Proof. vm_compute. reflexivity. Qed.

(** *** Small facts about the setters *)

Lemma set_history_id (self : t) :
  set_history self (measurements self) (timestamps self) = self.
Proof. destruct self; reflexivity. Qed.

Lemma start_fade_history (self : t) (q : Q) :
  measurements (start_fade self q) = measurements self /\
  timestamps (start_fade self q) = timestamps self.
Proof. unfold start_fade. destruct (negb _); split; reflexivity. Qed.

Lemma end_fade_history (self : t) :
  measurements (end_fade self) = measurements self /\
  timestamps (end_fade self) = timestamps self.
Proof. split; reflexivity. Qed.

(** Without a new reading and without a pending fade, [render] emits
    [None] whatever level is stored. *)
Lemma no_reading_no_fade (self : t) (params : EffectParameters) (now : Q) :
  new_reading self params = None ->
  truthy (fading_to self) = false ->
  render_level self params now = ok (self, None).
Proof.
  intros Hn Hf. unfold render_level. rewrite Hn, Hf. reflexivity.
Qed.

(** C2, at the failing input.  The layer has resolved the level 1/2 from
    two readings and no fade is pending; the next frame carries the same
    reading again.  [render] hands [None] to [render_responsive], not the
    resolved level, and [ResponsiveGreenHighRedLow] paints the frame in
    the colour of a missing signal. *)
Theorem C2_resolved_level_not_emitted :
  after_two_readings = ok settled /\
  last_response_level settled = Some (100#200) /\
  fading_to settled = None /\
  new_reading settled (params_with (Some (reading 2 (6#10))) (101 + (1#50))) = None /\
  render_level settled (params_with (Some (reading 2 (6#10))) (101 + (1#50)))
    (101 + (1#50)) = ok (settled, None) /\
  render_level settled (params_with None (101 + (1#50))) (101 + (1#50))
    = ok (settled, None) /\
  render (@ResponsiveGreenHighRedLow.render_responsive unit) settled tt
    (params_with None (101 + (1#50))) [(0, 0, 0)] (101 + (1#50))
    = ok (settled, [(0, 0, 0 + 1)]).
Proof. repeat split; vm_compute; reflexivity. Qed.

(** C3 fails: the first valid reading 0.4 of a layer without history is
    stored, and the level emitted on that call is [None], not 0.4. *)
Lemma C3_first_reading_not_emitted :
  render_level (init "attention" 5) (params_with (Some (reading 1 (4#10))) 100) 100
  = ok (set_last_eeg (set_history (init "attention" 5) [4#10] [100])
          (reading 1 (4#10)), None)
  /\ ~ (exists self',
         render_level (init "attention" 5)
           (params_with (Some (reading 1 (4#10))) 100) 100
         = ok (self', Some (4#10))).
Proof.
  split; [vm_compute; reflexivity|].
  intros [self' Hr]. vm_compute in Hr. discriminate Hr.
Qed.

Lemma mean2_value (a b : Q) : mean2 a b == (a + b) / 2.
Proof. unfold mean2, sum. simpl. field. Qed.

(** C3, amended.  A fresh layer stores its first valid reading and emits
    [None] on that call: no level is set and no fade is started.  The
    second valid reading sets the level at once, without a fade, to the
    mean of the two measurements, and that mean is emitted on the call. *)
Theorem C3_level_set_by_second_reading
    (name : string) (window t1 t2 v1 v2 : Q) (e1 e2 : EEGInfo) :
  on e1 = true -> on e2 = true ->
  eeg_ident e2 <> eeg_ident e1 ->
  eeg_getattr e1 name = ok v1 ->
  eeg_getattr e2 name = ok v2 ->
  0 <= window ->
  exists s1 s2,
    render_level (init name window) (params_with (Some e1) t1) t1 = ok (s1, None) /\
    measurements s1 = [v1] /\ timestamps s1 = [t1] /\
    last_response_level s1 = None /\ fading_to s1 = None /\
    render_level s1 (params_with (Some e2) t2) t2 = ok (s2, Some (mean2 v2 v1)) /\
    measurements s2 = [v2; v1] /\ timestamps s2 = [t2; t1] /\
    last_response_level s2 = Some (mean2 v2 v1) /\ fading_to s2 = None.
Proof.
  intros On1 On2 Hid G1 G2 Hw.
  assert (Hfresh : forall t, Qltb window (t - t) = false).
  { intros t. apply Qltb_ge.
    assert (E : t - t == 0) by ring. rewrite E. exact Hw. }
  eexists. eexists.
  split.
  { unfold render_level, new_reading. simpl. rewrite On1. simpl.
    unfold take_reading. simpl. rewrite G1. simpl.
    rewrite Hfresh. simpl. reflexivity. }
  simpl.
  repeat (split; [reflexivity|]).
  unfold render_level, new_reading. simpl.
  rewrite On2.
  assert (Hne : Nat.eqb (eeg_ident e2) (eeg_ident e1) = false)
    by (apply Nat.eqb_neq; exact Hid).
  rewrite Hne. simpl.
  unfold take_reading. simpl. rewrite G2. simpl.
  rewrite Hfresh.
  destruct (Qltb window (t2 - t1)); simpl;
    repeat split; reflexivity.
Qed.

Lemma C3_level_set_by_second_reading_witness :
  exists s1 s2,
    render_level (init "attention" 5) (params_with (Some (reading 1 (4#10))) 100) 100
      = ok (s1, None) /\
    measurements s1 = [4#10] /\ timestamps s1 = [100] /\
    last_response_level s1 = None /\ fading_to s1 = None /\
    render_level s1 (params_with (Some (reading 2 (6#10))) 101) 101
      = ok (s2, Some (mean2 (6#10) (4#10))) /\
    measurements s2 = [6#10; 4#10] /\ timestamps s2 = [101; 100] /\
    last_response_level s2 = Some (mean2 (6#10) (4#10)) /\ fading_to s2 = None.
Proof.
  apply (C3_level_set_by_second_reading "attention" 5 100 101 (4#10) (6#10)
           (reading 1 (4#10)) (reading 2 (6#10))).
  - reflexivity.
  - reflexivity.
  - simpl. lia.
  - reflexivity.
  - reflexivity.
  - apply Qle_bool_iff. reflexivity.
Defined.

(** *** Trimming of the history *)

Lemma trim_loop_keep_count (post pre : list Q) (self : t) (t0 : Q) :
  timestamps self = pre ++ post ->
  nth_error (timestamps self) 0 = Some t0 ->
  length (measurements self) = length (timestamps self) ->
  let k := (length pre + keep_count (smooth_response_over_n_secs self) t0 post)%nat in
  trim_loop (length post) (length pre) self =
  ok (set_history self (firstn k (measurements self)) (firstn k (timestamps self))).
Proof.
  revert pre. induction post as [|ti rest IH]; intros pre Hts H0 Hlen;
    cbn [trim_loop length keep_count].
  - rewrite Nat.add_0_r. simpl.
    assert (Hn : length pre = length (timestamps self)).
    { rewrite Hts, length_app. simpl. lia. }
    rewrite Hn, firstn_all, <- Hlen, firstn_all, set_history_id. reflexivity.
  - rewrite H0.
    assert (Hi : nth_error (timestamps self) (length pre) = Some ti).
    { rewrite Hts, nth_error_app2 by lia. rewrite Nat.sub_diag. reflexivity. }
    rewrite Hi.
    destruct (Qltb (smooth_response_over_n_secs self) (t0 - ti)) eqn:E.
    + rewrite Nat.add_1_r. reflexivity.
    + specialize (IH (pre ++ [ti])).
      rewrite length_app in IH. simpl in IH.
      rewrite Nat.add_1_r in IH.
      rewrite IH; [| rewrite <- app_assoc; exact Hts | exact H0 | exact Hlen ].
      replace (S (length pre) + keep_count (smooth_response_over_n_secs self) t0 rest)%nat
        with (length pre + S (keep_count (smooth_response_over_n_secs self) t0 rest))%nat
        by lia.
      reflexivity.
Qed.

Lemma map_snd_combine (ms ts : list Q) :
  length ms = length ts -> List.map snd (combine ms ts) = ts.
Proof.
  revert ts. induction ms as [|m ms IH]; intros [|t0 ts] H; simpl in *;
    try discriminate; [reflexivity|].
  f_equal. apply IH. lia.
Qed.

Lemma stale_older (window newest : Q) (x y : Q * Q) :
  snd y <= snd x -> stale window newest x = true -> stale window newest y = true.
Proof.
  unfold stale. intros Hle Hx. apply Qltb_lt in Hx. apply Qltb_lt.
  eapply Qlt_le_trans; [exact Hx|].
  apply Qplus_le_r. apply Qopp_le_compat. exact Hle.
Qed.

Lemma filter_within_all_stale (window newest : Q) (l : list (Q * Q)) :
  Forall (fun y => stale window newest y = true) l ->
  List.filter (within window newest) l = [].
Proof.
  induction 1 as [|y l Hy _ IH]; simpl; [reflexivity|].
  unfold within at 1. rewrite Hy. exact IH.
Qed.

Lemma filter_within_none_stale (window newest : Q) (l : list (Q * Q)) :
  List.filter (stale window newest) l = [] ->
  List.filter (within window newest) l = l.
Proof.
  induction l as [|x l IH]; simpl; [reflexivity|].
  unfold within at 1.
  destruct (stale window newest x); simpl; [discriminate|].
  intros H. f_equal. exact (IH H).
Qed.

(** Under timestamps that are newest first, the prefix the loop keeps is
    the entries within the window followed by the first stale entry. *)
Lemma keep_count_sorted (window newest : Q) (l : list (Q * Q)) :
  newest_first (List.map snd l) ->
  firstn (keep_count window newest (List.map snd l)) l =
  List.filter (within window newest) l ++
  firstn 1 (List.filter (stale window newest) l).
Proof.
  induction l as [|x l IH]; intros Hs; simpl; [reflexivity|].
  apply StronglySorted_inv in Hs. destruct Hs as [Hs Hall].
  unfold within at 1. fold (stale window newest x).
  destruct (stale window newest x) eqn:E; simpl.
  - rewrite filter_within_all_stale; [reflexivity|].
    apply List.Forall_forall. intros y Hy.
    rewrite List.Forall_forall in Hall.
    apply (stale_older window newest x y); [|exact E].
    apply Hall. apply List.in_map. exact Hy.
  - f_equal. apply IH. exact Hs.
Qed.

Lemma map_fst_combine (ms ts : list Q) :
  length ms = length ts -> List.map fst (combine ms ts) = ms.
Proof.
  revert ts. induction ms as [|m ms IH]; intros [|t0 ts] H; simpl in *;
    try discriminate; [reflexivity|].
  f_equal. apply IH. lia.
Qed.

Lemma take_reading_history (self : t) (e : EEGInfo) (now v : Q) :
  eeg_getattr e (respond_to self) = ok v ->
  length (measurements self) = length (timestamps self) ->
  let k := keep_count (smooth_response_over_n_secs self) now (now :: timestamps self) in
  exists self' level,
    take_reading self e now = ok (self', level) /\
    measurements self' = firstn k (v :: measurements self) /\
    timestamps self' = firstn k (now :: timestamps self).
Proof.
  intros Hget Hlen. unfold take_reading. rewrite Hget, rbind_ok. cbv zeta.
  set (s1 := set_last_eeg
               (set_history self (v :: measurements self) (now :: timestamps self)) e).
  assert (Hl1 : length (measurements s1) = length (timestamps s1)).
  { simpl. rewrite Hlen. reflexivity. }
  pose proof (trim_loop_keep_count (timestamps s1) [] s1 now eq_refl eq_refl Hl1) as Htrim.
  cbv zeta in Htrim.
  change (length (@nil Q)) with O in Htrim.
  rewrite Nat.add_0_l in Htrim.
  rewrite Hl1, Htrim, rbind_ok.
  set (k := keep_count (smooth_response_over_n_secs s1) now (timestamps s1)).
  set (s2 := set_history s1 (firstn k (measurements s1)) (firstn k (timestamps s1))).
  destruct (Nat.ltb 1 (length (measurements s2))).
  - eexists. eexists. split; [reflexivity|].
    destruct (start_fade_history s2
      (sum (measurements s2) * 1 / inject_Z (Z.of_nat (length (measurements s2)))))
      as [Hm Ht].
    rewrite Hm, Ht. split; reflexivity.
  - eexists. eexists. split; [reflexivity|]. split; reflexivity.
Qed.

(** C8: on a new valid reading the reading is prepended, and the history
    retained is every entry whose age (against the newest timestamp) is
    within the smoothing window, followed by the first entry, walking from
    the newest, whose age exceeds it; the history is kept in full when no
    entry exceeds the window.  The list of measurements and the list of
    timestamps are each given: they are the two columns of the retained
    entries.  Timestamps are those of a clock that does not run
    backwards. *)
Theorem C8_retained_history
    (self : t) (params : EffectParameters) (now v : Q) (e : EEGInfo) :
  new_reading self params = Some e ->
  eeg_getattr e (respond_to self) = ok v ->
  length (measurements self) = length (timestamps self) ->
  newest_first (now :: timestamps self) ->
  let window := smooth_response_over_n_secs self in
  let full := (v, now) :: history self in
  let kept :=
    List.filter (within window now) full ++
    firstn 1 (List.filter (stale window now) full) in
  exists self' level,
    render_level self params now = ok (self', level) /\
    measurements self' = List.map fst kept /\
    timestamps self' = List.map snd kept /\
    history self' = kept /\
    (List.filter (stale window now) full = [] ->
     measurements self' = v :: measurements self /\
     timestamps self' = now :: timestamps self).
Proof.
  intros Hnew Hget Hlen Hsorted window full kept.
  set (k := keep_count window now (now :: timestamps self)).
  assert (Hmain : exists self' level,
    render_level self params now = ok (self', level) /\
    measurements self' = firstn k (v :: measurements self) /\
    timestamps self' = firstn k (now :: timestamps self)).
  { unfold render_level. rewrite Hnew.
    set (s0 := if truthy (fading_to self) then end_fade self else self).
    assert (Hs0 : measurements s0 = measurements self /\
                  timestamps s0 = timestamps self /\
                  respond_to s0 = respond_to self /\
                  smooth_response_over_n_secs s0 = window).
    { unfold s0. destruct (truthy (fading_to self)); repeat split; reflexivity. }
    destruct Hs0 as (Hm0 & Ht0 & Hr0 & Hw0).
    rewrite <- Hr0 in Hget.
    assert (Hl0 : length (measurements s0) = length (timestamps s0)).
    { rewrite Hm0, Ht0. exact Hlen. }
    destruct (take_reading_history s0 e now v Hget Hl0)
      as (self' & level & Hr & Hm & Ht).
    exists self', level. split; [exact Hr|].
    rewrite Hm, Ht, Hm0, Ht0, Hw0. split; reflexivity. }
  destruct Hmain as (self' & level & Hr & Hm & Ht).
  exists self', level. split; [exact Hr|].
  assert (Hfst : List.map fst full = v :: measurements self).
  { unfold full, history. simpl. f_equal. apply map_fst_combine. exact Hlen. }
  assert (Hsnd : List.map snd full = now :: timestamps self).
  { unfold full, history. simpl. f_equal. apply map_snd_combine. exact Hlen. }
  assert (Hkept : firstn k full = kept).
  { unfold k, kept. rewrite <- Hsnd. apply keep_count_sorted.
    rewrite Hsnd. exact Hsorted. }
  assert (Hms : measurements self' = List.map fst kept).
  { rewrite Hm, <- Hkept, <- Hfst. apply List.firstn_map. }
  assert (Hts : timestamps self' = List.map snd kept).
  { rewrite Ht, <- Hkept, <- Hsnd. apply List.firstn_map. }
  split; [exact Hms|]. split; [exact Hts|]. split.
  - unfold history. rewrite Hm, Ht, <- Hkept.
    unfold full, history. rewrite <- combine_firstn. reflexivity.
  - intros Hnone.
    assert (Hall : kept = full).
    { unfold kept. rewrite Hnone.
      rewrite filter_within_none_stale by exact Hnone.
      cbn [firstn]. apply app_nil_r. }
    rewrite Hms, Hts, Hall, Hfst, Hsnd. split; reflexivity.
Qed.

Lemma newest_first_107 : newest_first [107; 101; 100].
Proof.
  unfold newest_first.
  repeat (constructor; try (apply Qle_bool_iff; reflexivity)).
Qed.

Lemma C8_retained_history_witness :
  exists self' level,
    render_level settled (params_with (Some (reading 3 (8#10))) 107) 107
      = ok (self', level) /\
    measurements self' =
      List.map fst
        (List.filter (within 5 107) ((8#10, 107) :: history settled) ++
         firstn 1 (List.filter (stale 5 107) ((8#10, 107) :: history settled))) /\
    timestamps self' =
      List.map snd
        (List.filter (within 5 107) ((8#10, 107) :: history settled) ++
         firstn 1 (List.filter (stale 5 107) ((8#10, 107) :: history settled))) /\
    history self' =
      List.filter (within 5 107) ((8#10, 107) :: history settled) ++
      firstn 1 (List.filter (stale 5 107) ((8#10, 107) :: history settled)) /\
    (List.filter (stale 5 107) ((8#10, 107) :: history settled) = [] ->
     measurements self' = (8#10) :: measurements settled /\
     timestamps self' = 107 :: timestamps settled).
Proof.
  apply (C8_retained_history settled
           (params_with (Some (reading 3 (8#10))) 107) 107 (8#10) (reading 3 (8#10))).
  - reflexivity.
  - reflexivity.
  - reflexivity.
  - exact newest_first_107.
Defined.

(** The reading of t = 101 is six seconds old at t = 107: it is the first
    entry past the five-second window and is kept; the older one goes. *)
Example one_entry_past_the_window :
  exists self' level,
    render_level settled (params_with (Some (reading 3 (8#10))) 107) 107
      = ok (self', level) /\
    history self' = [(8#10, 107); (6#10, 101)].
Proof. eexists. eexists. split; vm_compute; reflexivity. Qed.

(** *** Zero levels *)

(** C9: the guards of the layer test truthiness, so the level 0.0 counts
    as absent.  [start_fade] on a stored level 0.0 overwrites the level
    with the new target and starts no fade.  With a pending target 0.0, a
    new reading is taken without the fade being finalized, and a frame
    without a new reading neither finalizes nor interpolates: the state is
    left as it is and [None] is emitted. *)
Theorem C9_zero_is_absent (self : t) (zero : Q) :
  zero == 0 ->
  (last_response_level self = Some zero ->
   forall new_level,
     start_fade self new_level = set_levels self (Some new_level) (fading_to self)) /\
  (fading_to self = Some zero ->
   forall params now,
     match new_reading self params with
     | Some e => render_level self params now = take_reading self e now
     | None => render_level self params now = ok (self, None)
     end).
Proof.
  intros Hz. split.
  - intros Hl new_level. unfold start_fade.
    rewrite Hl, (truthy_zero zero Hz). reflexivity.
  - intros Hf params now. unfold render_level.
    rewrite Hf, (truthy_zero zero Hz).
    destruct (new_reading self params); reflexivity.
Qed.

Lemma C9_zero_is_absent_witness :
  (last_response_level at_zero = Some 0 ->
   forall new_level,
     start_fade at_zero new_level
     = set_levels at_zero (Some new_level) (fading_to at_zero)) /\
  (fading_to at_zero = Some 0 ->
   forall params now,
     match new_reading at_zero params with
     | Some e => render_level at_zero params now = take_reading at_zero e now
     | None => render_level at_zero params now = ok (at_zero, None)
     end).
Proof.
  apply (C9_zero_is_absent at_zero 0). reflexivity.
Defined.

(** The fade from 0.5 to the target 0.0 never runs: half a second after
    the reading the frame gets [None], where a fade would be half way, and
    a new reading discards the target 0.0 without the level ever taking
    it. *)
Example zero_target_not_interpolated :
  render_level fading_to_zero (params_with (Some (reading 2 0)) (101 + (1#2)))
    (101 + (1#2)) = ok (fading_to_zero, None).
Proof. vm_compute. reflexivity. Qed.

Example zero_target_not_finalized :
  exists self',
    render_level fading_to_zero (params_with (Some (reading 3 (1#4))) 102) 102
      = ok (self', Some (1#2)) /\
    last_response_level self' = Some (1#2).
Proof. eexists. split; vm_compute; reflexivity. Qed.

(** *** The states of the layer *)

Lemma keep_count_pos (window newest t0 : Q) (ts : list Q) :
  (1 <= keep_count window newest (t0 :: ts))%nat.
Proof. simpl. destruct (Qltb window (newest - t0)); lia. Qed.

Lemma keep_count_le (window newest : Q) (ts : list Q) :
  (keep_count window newest ts <= length ts)%nat.
Proof.
  induction ts as [|t0 ts IH]; simpl; [lia|].
  destruct (Qltb window (newest - t0)); lia.
Qed.

Lemma keep_count_two (window now t0 : Q) (ts : list Q) :
  0 <= window ->
  (2 <= keep_count window now (now :: t0 :: ts))%nat.
Proof.
  intros Hw. cbn [keep_count].
  assert (E : Qltb window (now - now) = false).
  { apply Qltb_ge. assert (Hz : now - now == 0) by ring. rewrite Hz. exact Hw. }
  rewrite E. destruct (Qltb window (now - t0)); lia.
Qed.

(** What the first branch of [render] computes, with the loop resolved. *)
Lemma take_reading_shape (self : t) (e : EEGInfo) (now v : Q) :
  eeg_getattr e (respond_to self) = ok v ->
  length (measurements self) = length (timestamps self) ->
  take_reading self e now =
  let k := keep_count (smooth_response_over_n_secs self) now (now :: timestamps self) in
  let s2 :=
    set_history (set_last_eeg self e)
      (firstn k (v :: measurements self)) (firstn k (now :: timestamps self)) in
  let s3 :=
    if Nat.ltb 1 (length (measurements s2))
    then start_fade s2 (mean (measurements s2))
    else s2 in
  ok (s3, last_response_level s3).
Proof.
  intros Hget Hlen. unfold take_reading. rewrite Hget, rbind_ok. cbv zeta.
  set (s1 := set_last_eeg
               (set_history self (v :: measurements self) (now :: timestamps self)) e).
  assert (Hl1 : length (measurements s1) = length (timestamps s1)).
  { simpl. rewrite Hlen. reflexivity. }
  pose proof (trim_loop_keep_count (timestamps s1) [] s1 now eq_refl eq_refl Hl1) as Htrim.
  cbv zeta in Htrim.
  change (length (@nil Q)) with O in Htrim.
  rewrite Nat.add_0_l in Htrim.
  rewrite Hl1, Htrim, rbind_ok. reflexivity.
Qed.

Lemma init_consistent (name : string) (window : Q) : consistent (init name window).
Proof. split; [reflexivity|]. simpl. discriminate. Qed.

Lemma truthy_some (x : option Q) : truthy x = true -> exists q, x = Some q.
Proof. destruct x as [q|]; [eauto|discriminate]. Qed.

(** Every consistent state whose [respond_to] names a metric is rendered
    without an exception, to a consistent state: from [init] on, [render]
    raises neither IndexError nor TypeError. *)
Theorem render_level_keeps_consistent
    (self : t) (params : EffectParameters) (now : Q) :
  consistent self ->
  (respond_to self = "attention"%string \/ respond_to self = "meditation"%string) ->
  exists self' level,
    render_level self params now = ok (self', level) /\ consistent self'.
Proof.
  intros [Hlen Hfade] Hname. unfold render_level.
  destruct (new_reading self params) as [e|] eqn:Hnew.
  - set (s0 := if truthy (fading_to self) then end_fade self else self).
    assert (Hs0 : length (measurements s0) = length (timestamps s0) /\
                  truthy (fading_to s0) = false /\
                  respond_to s0 = respond_to self).
    { unfold s0. destruct (truthy (fading_to self)) eqn:Ht; repeat split;
        try exact Hlen; assumption. }
    destruct Hs0 as (Hl0 & Hf0 & Hr0).
    assert (Hget : exists v, eeg_getattr e (respond_to s0) = ok v).
    { rewrite Hr0. unfold eeg_getattr.
      destruct Hname as [-> | ->]; simpl; eauto. }
    destruct Hget as [v Hget].
    rewrite (take_reading_shape s0 e now v Hget Hl0). cbv zeta.
    eexists. eexists. split; [reflexivity|].
    pose proof (keep_count_pos (smooth_response_over_n_secs s0) now now (timestamps s0)) as Hk.
    destruct (keep_count (smooth_response_over_n_secs s0) now (now :: timestamps s0))
      as [|k]; [lia|].
    cbn [measurements timestamps set_history set_last_eeg firstn length].
    assert (Hlk : length (firstn k (measurements s0)) = length (firstn k (timestamps s0))).
    { rewrite !length_firstn, Hl0. reflexivity. }
    destruct (Nat.ltb 1 (S (length (firstn k (measurements s0))))).
    + unfold start_fade.
      cbn [last_response_level fading_to set_history set_last_eeg].
      destruct (truthy (last_response_level s0)) eqn:Hlv; simpl negb; cbv iota;
        split; cbn [measurements timestamps set_levels set_history set_last_eeg
                    fading_to last_response_level length];
        try (rewrite Hlk; reflexivity).
      * intros _. split; [discriminate|exact Hlv].
      * intros Hc. rewrite Hf0 in Hc. discriminate.
    + split; cbn [measurements timestamps set_history set_last_eeg
                  fading_to last_response_level length].
      * rewrite Hlk. reflexivity.
      * intros Hc. rewrite Hf0 in Hc. discriminate.
  - destruct (truthy (fading_to self)) eqn:Ht.
    + destruct (Hfade eq_refl) as [Hts Hlv].
      destruct (timestamps self) as [|t0 rest] eqn:Ets; [contradiction|].
      destruct (Qle_bool 1 (now - t0)).
      * eexists. eexists. split; [reflexivity|].
        split; [simpl; rewrite Ets; exact Hlen|]. simpl. discriminate.
      * destruct (truthy_some _ Ht) as [target ->].
        destruct (truthy_some _ Hlv) as [lv Elv]. rewrite Elv.
        eexists. eexists. split; [reflexivity|].
        split; [rewrite Ets; exact Hlen|].
        intros _. rewrite Ets, Elv. split; [discriminate|].
        rewrite <- Elv. exact Hlv.
    + eexists. eexists. split; [reflexivity|].
      split; [exact Hlen|]. intros Hc. rewrite Ht in Hc. discriminate.
Qed.

Lemma render_level_keeps_consistent_witness :
  exists self' level,
    render_level settled (params_with (Some (reading 3 (8#10))) 107) 107
      = ok (self', level) /\ consistent self'.
Proof.
  apply (render_level_keeps_consistent settled
           (params_with (Some (reading 3 (8#10))) 107) 107).
  - split; [reflexivity|]. simpl. discriminate.
  - left. reflexivity.
Defined.

(** *** The fade between two levels *)

Lemma between_levels (p level target : Q) :
  0 <= p -> p < 1 ->
  Qmin level target <= p * target + (1 - p) * level /\
  p * target + (1 - p) * level <= Qmax level target.
Proof.
  intros H0 H1.
  destruct (Qlt_le_dec target level) as [Hlt|Hle].
  - rewrite (Q.min_r level target) by (apply Qlt_le_weak; exact Hlt).
    rewrite (Q.max_l level target) by (apply Qlt_le_weak; exact Hlt).
    split; nra.
  - rewrite (Q.min_l level target) by exact Hle.
    rewrite (Q.max_r level target) by exact Hle.
    split; nra.
Qed.

(** During the second after a reading, a frame without a new reading gets
    a level between the current level and the pending target, and leaves
    the layer as it is: the fade never overshoots. *)
Theorem fade_level_between
    (self : t) (params : EffectParameters) (now t0 target level : Q)
    (rest : list Q) :
  new_reading self params = None ->
  fading_to self = Some target ->
  ~ target == 0 ->
  last_response_level self = Some level ->
  timestamps self = t0 :: rest ->
  0 <= now - t0 ->
  now - t0 < 1 ->
  exists v,
    render_level self params now = ok (self, Some v) /\
    v = (now - t0) * target + (1 - (now - t0)) * level /\
    Qmin level target <= v /\ v <= Qmax level target.
Proof.
  intros Hnew Hf Hnz Hl Hts H0 H1.
  eexists. split; [|split; [reflexivity | apply between_levels; assumption]].
  unfold render_level.
  rewrite Hnew, Hf, (truthy_nonzero target Hnz), Hts, Hl.
  assert (Hp : Qle_bool 1 (now - t0) = false).
  { destruct (Qle_bool 1 (now - t0)) eqn:E; [|reflexivity].
    apply Qle_bool_iff in E. exfalso. exact (Qlt_not_le _ _ H1 E). }
  rewrite Hp. reflexivity.
Qed.

Lemma fade_level_between_witness :
  exists v,
    render_level
      (set_levels settled (Some (1#2)) (Some (3#4)))
      (params_with None (101 + (1#4))) (101 + (1#4))
      = ok (set_levels settled (Some (1#2)) (Some (3#4)), Some v) /\
    v = (101 + (1#4) - 101) * (3#4) + (1 - (101 + (1#4) - 101)) * (1#2) /\
    Qmin (1#2) (3#4) <= v /\ v <= Qmax (1#2) (3#4).
Proof.
  apply (fade_level_between (set_levels settled (Some (1#2)) (Some (3#4)))
           (params_with None (101 + (1#4))) (101 + (1#4)) 101 (3#4) (1#2) [100]).
  - reflexivity.
  - reflexivity.
  - intros H. vm_compute in H. discriminate H.
  - reflexivity.
  - reflexivity.
  - apply Qle_bool_iff. vm_compute. reflexivity.
  - reflexivity.
Defined.

(** A new valid reading that arrives while a fade is pending ends that
    fade first: the level jumps to the old target, which is what the
    frame gets, and the mean of the retained measurements is the new
    target. *)
Theorem new_reading_ends_fade
    (self : t) (params : EffectParameters) (now v target t0 : Q)
    (rest : list Q) (e : EEGInfo) :
  new_reading self params = Some e ->
  eeg_getattr e (respond_to self) = ok v ->
  fading_to self = Some target ->
  ~ target == 0 ->
  length (measurements self) = length (timestamps self) ->
  timestamps self = t0 :: rest ->
  0 <= smooth_response_over_n_secs self ->
  exists self',
    render_level self params now = ok (self', Some target) /\
    last_response_level self' = Some target /\
    fading_to self' = Some (mean (measurements self')) /\
    (2 <= length (measurements self'))%nat.
Proof.
  intros Hnew Hget Hf Hnz Hlen Hts Hw.
  unfold render_level. rewrite Hnew, Hf, (truthy_nonzero target Hnz).
  rewrite (take_reading_shape (end_fade self) e now v Hget Hlen). cbv zeta.
  cbn [end_fade smooth_response_over_n_secs timestamps measurements set_levels
       set_history set_last_eeg].
  rewrite Hts.
  pose proof (keep_count_two (smooth_response_over_n_secs self) now t0 rest Hw) as Hk.
  pose proof (keep_count_le (smooth_response_over_n_secs self) now (now :: t0 :: rest)) as Hk'.
  set (k := keep_count (smooth_response_over_n_secs self) now (now :: t0 :: rest)) in *.
  assert (Hm : length (firstn k (v :: measurements self)) = k).
  { rewrite length_firstn. simpl length in *. rewrite Hlen, Hts. simpl. lia. }
  rewrite Hm.
  assert (Hlt : Nat.ltb 1 k = true) by (apply Nat.ltb_lt; lia).
  rewrite Hlt. unfold start_fade.
  cbn [last_response_level set_history set_last_eeg set_levels].
  change (last_response_level (end_fade self)) with (fading_to self).
  rewrite Hf, (truthy_nonzero target Hnz). simpl negb. cbv iota.
  eexists. split; [reflexivity|].
  cbn [last_response_level fading_to measurements set_levels set_history set_last_eeg].
  repeat split. rewrite Hm. exact Hk.
Qed.

Lemma new_reading_ends_fade_witness :
  exists self',
    render_level (set_levels settled (Some (1#2)) (Some (3#4)))
      (params_with (Some (reading 3 (8#10))) 102) 102 = ok (self', Some (3#4)) /\
    last_response_level self' = Some (3#4) /\
    fading_to self' = Some (mean (measurements self')) /\
    (2 <= length (measurements self'))%nat.
Proof.
  apply (new_reading_ends_fade (set_levels settled (Some (1#2)) (Some (3#4)))
           (params_with (Some (reading 3 (8#10))) 102) 102 (8#10) (3#4) 101 [100]
           (reading 3 (8#10))).
  - reflexivity.
  - reflexivity.
  - reflexivity.
  - intros H. vm_compute in H. discriminate H.
  - reflexivity.
  - reflexivity.
  - apply Qle_bool_iff. reflexivity.
Defined.

(** *** What a reading does to the history and to the levels *)

Lemma sum_from_constant (v a : Q) (l : list Q) :
  Forall (fun m => m == v) l ->
  fold_left Qplus l a == a + inject_Z (Z.of_nat (length l)) * v.
Proof.
  intros H. revert a. induction H as [|m l Hm _ IH]; intros a.
  - simpl. ring.
  - cbn [fold_left]. rewrite IH. rewrite Hm.
    assert (E : inject_Z (Z.of_nat (length (m :: l))) ==
                inject_Z (Z.of_nat (length l)) + 1).
    { cbn [length]. rewrite Nat2Z.inj_succ. unfold Z.succ.
      rewrite inject_Z_plus. reflexivity. }
    rewrite E. ring.
Qed.

Lemma mean_constant (v : Q) (l : list Q) :
  l <> [] -> Forall (fun m => m == v) l -> mean l == v.
Proof.
  intros Hne H. unfold mean, sum. rewrite (sum_from_constant v 0 l H).
  assert (Hn : ~ inject_Z (Z.of_nat (length l)) == 0).
  { destruct l as [|m l]; [contradiction|].
    intros E. unfold Qeq in E. simpl in E. lia. }
  field. exact Hn.
Qed.

(** A reading of the value all stored measurements have leaves the layer
    with that value: whichever of the level and the target the call sets,
    it is set to [v], so a steady signal holds the level steady. *)
Theorem steady_signal_keeps_value
    (self : t) (params : EffectParameters) (now v t0 : Q) (rest : list Q)
    (e : EEGInfo) :
  new_reading self params = Some e ->
  eeg_getattr e (respond_to self) = ok v ->
  Forall (fun m => m == v) (measurements self) ->
  length (measurements self) = length (timestamps self) ->
  timestamps self = t0 :: rest ->
  0 <= smooth_response_over_n_secs self ->
  exists self' level q,
    render_level self params now = ok (self', level) /\
    q == v /\
    (last_response_level self' = Some q \/ fading_to self' = Some q).
Proof.
  intros Hnew Hget Hall Hlen Hts Hw.
  unfold render_level. rewrite Hnew.
  set (s0 := if truthy (fading_to self) then end_fade self else self).
  assert (Hs0 : measurements s0 = measurements self /\
                timestamps s0 = timestamps self /\
                respond_to s0 = respond_to self /\
                smooth_response_over_n_secs s0 = smooth_response_over_n_secs self).
  { unfold s0. destruct (truthy (fading_to self)); repeat split. }
  destruct Hs0 as (Hm0 & Ht0 & Hr0 & Hw0).
  rewrite <- Hr0 in Hget. rewrite <- Hm0, <- Ht0 in Hlen.
  rewrite (take_reading_shape s0 e now v Hget Hlen). cbv zeta.
  rewrite Hw0, Ht0, Hm0, Hts.
  pose proof (keep_count_two (smooth_response_over_n_secs self) now t0 rest Hw) as Hk.
  set (k := keep_count (smooth_response_over_n_secs self) now (now :: t0 :: rest)) in *.
  cbn [measurements set_history set_last_eeg].
  assert (Hlk : length (firstn k (v :: measurements self)) = k).
  { rewrite length_firstn. simpl length. rewrite <- Hm0, Hlen, Ht0, Hts. simpl.
    pose proof (keep_count_le (smooth_response_over_n_secs self) now (now :: t0 :: rest)).
    simpl length in *. fold k in H. lia. }
  rewrite Hlk.
  assert (Hlt : Nat.ltb 1 k = true) by (apply Nat.ltb_lt; lia).
  rewrite Hlt.
  assert (Hmean : mean (firstn k (v :: measurements self)) == v).
  { apply mean_constant.
    - destruct k; [lia|]. simpl. discriminate.
    - apply Forall_take. constructor; [reflexivity | exact Hall]. }
  unfold start_fade.
  destruct (negb (truthy (last_response_level _))); eexists; eexists;
    exists (mean (firstn k (v :: measurements self)));
    (split; [reflexivity|]); (split; [exact Hmean|]);
    [left | right]; reflexivity.
Qed.

Lemma steady_signal_keeps_value_witness :
  exists self' level q,
    render_level (set_history settled [6#10; 6#10] [101; 100])
      (params_with (Some (reading 3 (6#10))) 102) 102 = ok (self', level) /\
    q == 6#10 /\
    (last_response_level self' = Some q \/ fading_to self' = Some q).
Proof.
  apply (steady_signal_keeps_value (set_history settled [6#10; 6#10] [101; 100])
           (params_with (Some (reading 3 (6#10))) 102) 102 (6#10) 101 [100]
           (reading 3 (6#10))).
  - reflexivity.
  - reflexivity.
  - repeat constructor.
  - reflexivity.
  - reflexivity.
  - apply Qle_bool_iff. reflexivity.
Defined.

(** A frame without a new valid reading (no reading, the reading object
    of the last time, or a reading whose [on] flag is off) leaves the
    history and [last_eeg] as they are, whatever it does to the fade. *)
Theorem stale_reading_ignored
    (self self' : t) (params : EffectParameters) (now : Q) (level : option Q) :
  new_reading self params = None ->
  render_level self params now = ok (self', level) ->
  measurements self' = measurements self /\
  timestamps self' = timestamps self /\
  last_eeg self' = last_eeg self.
Proof.
  intros Hnew. unfold render_level. rewrite Hnew.
  destruct (truthy (fading_to self)).
  - destruct (timestamps self) as [|t0 rest] eqn:Ets; [discriminate|].
    destruct (Qle_bool 1 (now - t0)).
    + intros H. inversion H; subst. simpl. rewrite Ets. repeat split.
    + destruct (fading_to self); [|discriminate].
      destruct (last_response_level self); [|discriminate].
      intros H. inversion H; subst. rewrite Ets. repeat split.
  - intros H. inversion H; subst. repeat split.
Qed.

Lemma stale_reading_ignored_witness :
  measurements settled = measurements settled /\
  timestamps settled = timestamps settled /\
  last_eeg settled = last_eeg settled.
Proof.
  apply (stale_reading_ignored settled settled
           (params_with (Some (reading 2 (9#10))) 105) 105 None).
  - reflexivity.
  - reflexivity.
Defined.

(** A new valid reading becomes the newest entry of the history, with the
    clock of the call as its timestamp, and the history grows by one
    entry at most. *)
Theorem reading_is_newest_entry
    (self self' : t) (params : EffectParameters) (now v : Q)
    (level : option Q) (e : EEGInfo) :
  new_reading self params = Some e ->
  eeg_getattr e (respond_to self) = ok v ->
  length (measurements self) = length (timestamps self) ->
  render_level self params now = ok (self', level) ->
  exists ms ts,
    measurements self' = v :: ms /\
    timestamps self' = now :: ts /\
    length ms = length ts /\
    (length ms <= length (measurements self))%nat /\
    last_eeg self' = Some e.
Proof.
  intros Hnew Hget Hlen. unfold render_level. rewrite Hnew.
  set (s0 := if truthy (fading_to self) then end_fade self else self).
  assert (Hs0 : measurements s0 = measurements self /\
                timestamps s0 = timestamps self /\
                respond_to s0 = respond_to self).
  { unfold s0. destruct (truthy (fading_to self)); repeat split. }
  destruct Hs0 as (Hm0 & Ht0 & Hr0).
  rewrite <- Hr0 in Hget. rewrite <- Hm0, <- Ht0 in Hlen.
  rewrite (take_reading_shape s0 e now v Hget Hlen). cbv zeta.
  pose proof (keep_count_pos (smooth_response_over_n_secs s0) now now (timestamps s0)) as Hk.
  destruct (keep_count (smooth_response_over_n_secs s0) now (now :: timestamps s0))
    as [|k]; [lia|].
  intros H. inversion H as [[Hs Hl]]. clear H Hl.
  exists (firstn k (measurements s0)), (firstn k (timestamps s0)).
  assert (Hlk : length (firstn k (measurements s0)) = length (firstn k (timestamps s0))).
  { rewrite !length_firstn, Hlen. reflexivity. }
  assert (Hle : (length (firstn k (measurements s0)) <= length (measurements self))%nat).
  { rewrite length_firstn, Hm0. lia. }
  destruct (Nat.ltb 1 _).
  - unfold start_fade. destruct (negb _); cbn; repeat split; assumption.
  - cbn. repeat split; assumption.
Qed.

Lemma reading_is_newest_entry_witness :
  exists ms ts,
    measurements
      (set_levels
         (set_history (set_last_eeg settled (reading 3 (8#10)))
            [8#10; 6#10] [107; 101])
         (Some (100#200)) (Some (mean [8#10; 6#10]))) = (8#10) :: ms /\
    timestamps
      (set_levels
         (set_history (set_last_eeg settled (reading 3 (8#10)))
            [8#10; 6#10] [107; 101])
         (Some (100#200)) (Some (mean [8#10; 6#10]))) = 107 :: ts /\
    length ms = length ts /\
    (length ms <= length (measurements settled))%nat /\
    last_eeg
      (set_levels
         (set_history (set_last_eeg settled (reading 3 (8#10)))
            [8#10; 6#10] [107; 101])
         (Some (100#200)) (Some (mean [8#10; 6#10]))) = Some (reading 3 (8#10)).
Proof.
  apply (reading_is_newest_entry settled _
           (params_with (Some (reading 3 (8#10))) 107) 107 (8#10)
           (Some (100#200)) (reading 3 (8#10))).
  - reflexivity.
  - reflexivity.
  - reflexivity.
  - vm_compute. reflexivity.
Defined.

(** *** ResponsiveGreenHighRedLow *)


End ResponsiveProperties.

(** ** Fades and the renderer *)

Section EngineProperties.

Context {Layer Heap Model Playlist : Type}.
Variable layer_render :
  Layer -> Model -> EffectParameters -> Frame -> Heap -> Heap * option Frame.
Variable selection : Playlist -> list Layer.
Variable advance : Playlist -> Playlist.

Local Abbreviation Fade := (Fade Layer).
Local Abbreviation Renderer := (Renderer Layer Playlist).
Local Abbreviation safely_render := (safely_render layer_render).
Local Abbreviation render_layers := (render_layers layer_render).
Local Abbreviation render_scene := (render_scene layer_render).
Local Abbreviation Fade_render := (Fade_render layer_render).
Local Abbreviation Renderer_render := (Renderer_render layer_render selection).
Local Abbreviation advanceCurrentPlaylist := (advanceCurrentPlaylist selection advance).
Local Abbreviation rendered := (rendered layer_render).
Local Abbreviation waiting := (waiting layer_render selection).
Local Abbreviation renders := (renders layer_render selection).

(** *** Layers *)

Lemma render_layers_app (l1 l2 : list Layer) (model : Model)
    (params : EffectParameters) (frame : Frame) (h : Heap) :
  render_layers (l1 ++ l2) model params frame h =
  let '(f1, h1) := render_layers l1 model params frame h in
  render_layers l2 model params f1 h1.
Proof.
  revert frame h. induction l1 as [|l l1 IH]; intros frame h; simpl.
  - reflexivity.
  - destruct (safely_render l model params frame h) as [f' h']. apply IH.
Qed.

Lemma interp_frame_total (frame : Frame) (g : GammaLayer.t) :
  GammaLayer.well_formed g = true ->
  exists out, GammaLayer.render g frame = ok out /\ length out = length frame.
Proof.
  unfold GammaLayer.well_formed, GammaLayer.render.
  destruct (GammaLayer.lutX g) as [|x0 xp]; [discriminate|].
  destruct (GammaLayer.lutY g) as [|y0 fp]; [discriminate|].
  intros Hlen. induction frame as [|[[r gr] b] rest IH]; simpl.
  - rewrite Hlen. simpl. eexists. split; reflexivity.
  - rewrite Hlen. simpl. destruct IH as [out [Hout Hl]].
    simpl in Hout. rewrite Hout. simpl. eexists. split; [reflexivity|].
    simpl. rewrite Hl. reflexivity.
Qed.

(** C1: with no fade and an active playlist, [render] raises nothing: it
    returns the frame of the layers of the current selection, then gamma
    correction, and the renderer as it was.  A layer whose [render] fails
    is skipped: the layers after it are rendered on the frame that the
    layers before it produced. *)
Theorem C1_layer_failure_contained
    (self : Renderer) (model : Model) (params : EffectParameters)
    (frame : Frame) (t_enter t_now : Q) (h : Heap)
    (key : string) (p : Playlist) :
  fade self = None ->
  activePlaylist self = Some key ->
  key <> ""%string ->
  playlists self !! key = Some p ->
  GammaLayer.well_formed (gammaLayer self) = true ->
  (exists out,
     GammaLayer.render (gammaLayer self)
       (fst (render_layers (selection p) model params frame h)) = ok out /\
     Renderer_render self model params frame t_enter t_now h =
       ok (self, out, snd (render_layers (selection p) model params frame h))) /\
  (forall before layer after f1 h1 h2,
     selection p = before ++ layer :: after ->
     render_layers before model params frame h = (f1, h1) ->
     layer_render layer model params f1 h1 = (h2, None) ->
     render_layers (selection p) model params frame h =
       render_layers after model params f1 h2).
Proof.
  intros Hfade Hact Hkey Hp Hg. split.
  - destruct (interp_frame_total
                (fst (render_layers (selection p) model params frame h))
                (gammaLayer self) Hg) as [out [Hout _]].
    exists out. split; [exact Hout|].
    unfold Renderer_render. rewrite Hfade, Hact.
    assert (Ht : truthy_name (Some key) = true).
    { simpl. apply negb_true_iff. apply String.eqb_neq. exact Hkey. }
    rewrite Ht. unfold _active, _get. rewrite Hact, Ht, Hp.
    rewrite !rbind_ok. unfold selection_of. rewrite rbind_ok.
    destruct (render_layers (selection p) model params frame h) as [f' h'].
    rewrite rbind_ok. simpl in Hout. rewrite Hout. reflexivity.
  - intros before layer after f1 h1 h2 Hsel Hbefore Hfail.
    rewrite Hsel, render_layers_app, Hbefore. simpl.
    unfold safely_render. rewrite Hfail. reflexivity.
Qed.

(** *** LinearFade *)

Lemma Fade_render_Linear
    (d : bool) (startLayers endLayers : option (list Layer)) (duration : Q)
    (start : option Q) (model : Model) (params : EffectParameters)
    (frame : Frame) (t_enter t_now : Q) (h : Heap) :
  Fade_render (Linear d startLayers endLayers duration start)
    model params frame t_enter t_now h =
  let s := start_instant start t_enter in
  let '(frame, h) := render_scene endLayers model params frame h in
  if Qeq_bool duration 0 then raise ZeroDivisionError
  else
    let percentDone := (t_now - s) / duration in
    if Qle_bool 1 percentDone then
      ok (Linear true startLayers endLayers duration (Some s), frame, h)
    else
      let frame := frame_scale percentDone frame in
      if truthy_layers startLayers then
        let frame2 := frame_zeros frame in
        let '(frame2, h) := render_scene startLayers model params frame2 h in
        let frame2 := frame_scale (1 - percentDone) frame2 in
        ok (Linear d startLayers endLayers duration (Some s),
            frame_add frame frame2, h)
      else
        ok (Linear d startLayers endLayers duration (Some s), frame, h).
Proof. reflexivity. Qed.

Lemma Fade_render_TwoStep
    (d : bool) (startLayers endLayers : option (list Layer)) (fade1 fade2 : Fade)
    (model : Model) (params : EffectParameters)
    (frame : Frame) (t_enter t_now : Q) (h : Heap) :
  Fade_render (TwoStep d startLayers endLayers fade1 fade2)
    model params frame t_enter t_now h =
  if negb (done fade1) then
    try! (fade1, frame, h) := Fade_render fade1 model params frame t_enter t_now h in
    ok (TwoStep d startLayers endLayers fade1 fade2, frame, h)
  else
    try! (fade2, frame, h) := Fade_render fade2 model params frame t_enter t_now h in
    ok (TwoStep (done fade2) startLayers endLayers fade1 fade2, frame, h).
Proof. reflexivity. Qed.

Lemma start_instant_kept (s t_enter : Q) :
  ~ s == 0 -> start_instant (Some s) t_enter = s.
Proof.
  intros H. unfold start_instant. rewrite (truthy_nonzero s H). reflexivity.
Qed.

Lemma start_instant_captured (t_enter : Q) : start_instant None t_enter = t_enter.
Proof. reflexivity. Qed.

Lemma Qeq_bool_pos (d : Q) : 0 < d -> Qeq_bool d 0 = false.
Proof.
  intros H. destruct (Qeq_bool d 0) eqn:E; [|reflexivity].
  apply Qeq_bool_iff in E. rewrite E in H. exfalso. exact (Qlt_irrefl 0 H).
Qed.

Lemma render_scene_pair (layers : option (list Layer)) (model : Model)
    (params : EffectParameters) (frame : Frame) (h : Heap) :
  render_scene layers model params frame h =
  (fst (render_scene layers model params frame h),
   snd (render_scene layers model params frame h)).
Proof. destruct (render_scene layers model params frame h); reflexivity. Qed.

Lemma render_scene_falsy (layers : option (list Layer)) (model : Model)
    (params : EffectParameters) (frame : Frame) (h : Heap) :
  truthy_layers layers = false ->
  render_scene layers model params frame h = (frame, h).
Proof.
  destruct layers as [[|l rest]|]; simpl; intros H;
    try reflexivity; discriminate.
Qed.

Lemma frame_zeros_scale (k : Q) (f : Frame) :
  frame_zeros (frame_scale k f) = frame_zeros f.
Proof.
  unfold frame_zeros, frame_scale. rewrite List.map_map.
  apply List.map_ext. intros [[r g] b]. reflexivity.
Qed.

Lemma led_eq_refl (a : LED) : led_eq a a.
Proof. destruct a as [[r g] b]. simpl. repeat split; reflexivity. Qed.

Lemma frame_eq_refl (f : Frame) : frame_eq f f.
Proof.
  unfold frame_eq. induction f; constructor; [apply led_eq_refl | assumption].
Qed.

Lemma frame_add_zeros (k : Q) (f : Frame) :
  frame_eq f (frame_add f (frame_scale k (frame_zeros f))).
Proof.
  unfold frame_eq. induction f as [|[[r g] b] f IH]; simpl; constructor.
  - simpl. repeat split; ring.
  - exact IH.
Qed.

(** A call of [render] that returns leaves a linear fade linear, with the
    start instant that call saw. *)
Lemma Fade_render_Linear_start
    (d : bool) (startLayers endLayers : option (list Layer)) (duration : Q)
    (start : option Q) (model : Model) (params : EffectParameters)
    (frame frame' : Frame) (t_enter t_now : Q) (h h' : Heap) (f' : Fade) :
  Fade_render (Linear d startLayers endLayers duration start)
    model params frame t_enter t_now h = ok (f', frame', h') ->
  exists d', f' = Linear d' startLayers endLayers duration
                    (Some (start_instant start t_enter)).
Proof.
  rewrite Fade_render_Linear. cbv zeta.
  destruct (render_scene endLayers model params frame h) as [fr hh].
  destruct (Qeq_bool duration 0); [discriminate|].
  destruct (Qle_bool 1 _).
  - intros H. inversion H. eexists. reflexivity.
  - destruct (truthy_layers startLayers).
    + destruct (render_scene startLayers model params _ hh) as [fr2 hh2].
      intros H. inversion H. eexists. reflexivity.
    + intros H. inversion H. eexists. reflexivity.
Qed.

(** The start instant of a linear fade is the clock of its first call of
    [render], whatever is rendered afterwards (the clock does not read
    0.0). *)
Lemma rendered_linear_start
    (startLayers endLayers : option (list Layer)) (duration : Q)
    (model : Model) (params : EffectParameters) (frame frame' : Frame)
    (t_enter t_now : Q) (h h' : Heap) (f1 f : Fade) :
  ~ t_enter == 0 ->
  Fade_render (LinearFade startLayers endLayers duration)
    model params frame t_enter t_now h = ok (f1, frame', h') ->
  rendered f1 f ->
  exists d, f = Linear d startLayers endLayers duration (Some t_enter).
Proof.
  intros Hnz Hfirst Hr.
  destruct (Fade_render_Linear_start _ _ _ _ _ _ _ _ _ _ _ _ _ _ Hfirst) as [d1 Hf1].
  simpl in Hf1.
  induction Hr as [|f0 f' f'' ? ? ? ? ? ? ? ? _ IH Hcall].
  - exists d1. exact Hf1.
  - destruct (IH Hfirst Hf1) as [d' Hf']. subst f'.
    destruct (Fade_render_Linear_start _ _ _ _ _ _ _ _ _ _ _ _ _ _ Hcall) as [d'' Hf''].
    rewrite (start_instant_kept t_enter _ Hnz) in Hf''.
    exists d''. exact Hf''.
Qed.


(** C5: while a linear fade is active, that is while the time elapsed
    since its start instant is less than its duration, the frame it
    leaves is the end scene's frame scaled by the end weight plus the
    start scene's frame, rendered into a zeroed buffer, scaled by the
    start weight.  The end weight is elapsed/duration clamped to [0, 1]
    and the two weights add up to one. *)
Theorem C5_linear_fade_blend
    (d : bool) (startLayers endLayers : option (list Layer)) (duration : Q)
    (start : option Q) (model : Model) (params : EffectParameters)
    (frame : Frame) (t_enter t_now : Q) (h : Heap) :
  let elapsed := t_now - start_instant start t_enter in
  let end_weight := elapsed / duration in
  let start_weight := 1 - end_weight in
  let E := render_scene endLayers model params frame h in
  let S := render_scene startLayers model params (frame_zeros (fst E)) (snd E) in
  0 <= elapsed ->
  elapsed < duration ->
  exists out,
    Fade_render (Linear d startLayers endLayers duration start)
      model params frame t_enter t_now h =
    ok (Linear d startLayers endLayers duration
          (Some (start_instant start t_enter)), out, snd S) /\
    frame_eq out
      (frame_add (frame_scale end_weight (fst E))
                 (frame_scale start_weight (fst S))) /\
    end_weight == Qmax 0 (Qmin (elapsed / duration) 1) /\
    end_weight + start_weight == 1.
Proof.
  intros elapsed end_weight start_weight E S Hge Hlt.
  assert (Hd : 0 < duration) by (eapply Qle_lt_trans; eassumption).
  assert (Hw1 : end_weight < 1).
  { unfold end_weight. apply Qlt_shift_div_r; [exact Hd|].
    rewrite Qmult_1_l. exact Hlt. }
  assert (Hw0 : 0 <= end_weight).
  { unfold end_weight. apply Qle_shift_div_l; [exact Hd|].
    rewrite Qmult_0_l. exact Hge. }
  assert (Hp : Qle_bool 1 end_weight = false).
  { destruct (Qle_bool 1 end_weight) eqn:Eb; [|reflexivity].
    apply Qle_bool_iff in Eb. exfalso. exact (Qlt_not_le _ _ Hw1 Eb). }
  assert (Hclamp : end_weight == Qmax 0 (Qmin (elapsed / duration) 1)).
  { fold end_weight. rewrite (Q.min_l end_weight 1) by (apply Qlt_le_weak; exact Hw1).
    rewrite (Q.max_r 0 end_weight) by exact Hw0. reflexivity. }
  assert (Hsum : end_weight + start_weight == 1) by (unfold start_weight; ring).
  rewrite Fade_render_Linear. cbv zeta.
  rewrite (render_scene_pair endLayers). fold E.
  rewrite (Qeq_bool_pos duration Hd).
  fold elapsed. fold end_weight. rewrite Hp.
  rewrite frame_zeros_scale.
  destruct (truthy_layers startLayers) eqn:Ht.
  - rewrite (render_scene_pair startLayers). fold S.
    eexists. split; [reflexivity|].
    split; [apply frame_eq_refl|]. split; assumption.
  - assert (HS : S = (frame_zeros (fst E), snd E)).
    { unfold S. apply render_scene_falsy. exact Ht. }
    rewrite HS. simpl fst. simpl snd.
    eexists. split; [reflexivity|].
    split; [|split; assumption].
    rewrite <- (frame_zeros_scale end_weight (fst E)).
    apply frame_add_zeros.
Qed.

(** *** TwoStepFade *)

Lemma fresh_two_step_invariant (f : Fade) :
  fresh_two_step f -> two_step_invariant f.
Proof.
  intros H. destruct H as [fade1 fade2 sl el Hd| |]; simpl.
  - rewrite Hd. split; [reflexivity|discriminate].
  - split; [reflexivity|discriminate].
  - split; [reflexivity|discriminate].
Qed.

Lemma two_step_invariant_render (f f' : Fade) (model : Model)
    (params : EffectParameters) (frame frame' : Frame) (t_enter t_now : Q)
    (h h' : Heap) :
  two_step_invariant f ->
  Fade_render f model params frame t_enter t_now h = ok (f', frame', h') ->
  two_step_invariant f'.
Proof.
  destruct f as [|d sl el fade1 fade2]; [intros []|].
  intros [Hd Himp]. rewrite Fade_render_TwoStep.
  destruct (done fade1) eqn:E1; simpl negb; cbv iota.
  - destruct (Fade_render fade2 model params frame t_enter t_now h)
      as [e|[[f2' fr] hh]] eqn:E2; simpl; intros Heq; [discriminate|].
    inversion Heq; subst. simpl. split; [reflexivity|]. intros _. exact E1.
  - destruct (Fade_render fade1 model params frame t_enter t_now h)
      as [e|[[f1' fr] hh]] eqn:E2; simpl; intros Heq; [discriminate|].
    inversion Heq; subst. simpl. split; [reflexivity|].
    intros H2. specialize (Himp H2). congruence.
Qed.

Lemma rendered_invariant (f f' : Fade) :
  two_step_invariant f -> rendered f f' -> two_step_invariant f'.
Proof.
  intros Hinv Hr. induction Hr as [|f f' f'' ? ? ? ? ? ? ? ? _ IH Hcall].
  - exact Hinv.
  - eapply two_step_invariant_render; [apply IH; exact Hinv | exact Hcall].
Qed.

(** C6: a two-step fade, fresh from [TwoStepFade], [FastFade] or
    [TwoStepLinearFade] and rendered any number of times, is done exactly
    when its second sub-fade is done, and then its first sub-fade is done
    too.  Each call of its [render] is one call of [render] of one
    sub-fade: of the first while that is not done, leaving the second and
    the done flag as they are, and of the second afterwards, leaving the
    first as it is. *)
Theorem C6_two_step_fade (f0 f : Fade) :
  fresh_two_step f0 ->
  rendered f0 f ->
  exists d startLayers endLayers fade1 fade2,
    f = TwoStep d startLayers endLayers fade1 fade2 /\
    (done f = true <-> done fade2 = true) /\
    (done f = true -> done fade1 = true) /\
    forall model params frame t_enter t_now h,
      (done fade1 = false ->
       Fade_render f model params frame t_enter t_now h =
       try! (fade1', frame', h') :=
         Fade_render fade1 model params frame t_enter t_now h in
       ok (TwoStep d startLayers endLayers fade1' fade2, frame', h')) /\
      (done fade1 = true ->
       Fade_render f model params frame t_enter t_now h =
       try! (fade2', frame', h') :=
         Fade_render fade2 model params frame t_enter t_now h in
       ok (TwoStep (done fade2') startLayers endLayers fade1 fade2', frame', h')).
Proof.
  intros Hfresh Hr.
  pose proof (rendered_invariant f0 f (fresh_two_step_invariant f0 Hfresh) Hr) as Hinv.
  destruct f as [|d sl el fade1 fade2]; [destruct Hinv|].
  destruct Hinv as [Hd Himp].
  exists d, sl, el, fade1, fade2. split; [reflexivity|].
  simpl done. split; [rewrite Hd; tauto|].
  split; [intros H; apply Himp; rewrite <- Hd; exact H|].
  intros model params frame t_enter t_now h.
  split; intros H1; rewrite Fade_render_TwoStep, H1; reflexivity.
Qed.

(** *** Renderer *)

Lemma truthy_name_some (name : string) :
  name <> ""%string -> truthy_name (Some name) = true.
Proof.
  intros H. simpl. apply negb_true_iff. apply String.eqb_neq. exact H.
Qed.

(** C7: when the fade of the renderer reports done after it is rendered,
    that same call of [render] clears the fade; if a pending playlist
    name is set, it becomes the active playlist and the pending name is
    cleared; otherwise both names stay as they are. *)
Theorem C7_done_fade_retired
    (self : Renderer) (f f' : Fade) (model : Model) (params : EffectParameters)
    (frame frame' : Frame) (t_enter t_now : Q) (h h' : Heap) :
  fade self = Some f ->
  Fade_render f model params frame t_enter t_now h = ok (f', frame', h') ->
  done f' = true ->
  GammaLayer.well_formed (gammaLayer self) = true ->
  exists self' out,
    Renderer_render self model params frame t_enter t_now h = ok (self', out, h') /\
    GammaLayer.render (gammaLayer self) frame' = ok out /\
    fade self' = None /\
    playlists self' = playlists self /\
    (forall name,
       nextPlaylist self = Some name -> name <> ""%string ->
       activePlaylist self' = Some name /\ nextPlaylist self' = None) /\
    (truthy_name (nextPlaylist self) = false ->
     activePlaylist self' = activePlaylist self /\
     nextPlaylist self' = nextPlaylist self).
Proof.
  intros Hf Hr Hdone Hg.
  destruct (interp_frame_total frame' (gammaLayer self) Hg) as [out [Hout _]].
  unfold Renderer_render. rewrite Hf, Hr, rbind_ok, Hdone.
  destruct (truthy_name (nextPlaylist self)) eqn:Ht; rewrite rbind_ok;
    cbn [gammaLayer set_fade set_names]; rewrite Hout, rbind_ok;
    eexists; exists out; (split; [reflexivity|]); (split; [reflexivity|]);
    (split; [reflexivity|]); (split; [reflexivity|]); split.
  - intros name Hn _. simpl. rewrite Hn. split; reflexivity.
  - discriminate.
  - intros name Hn Hne. rewrite Hn, (truthy_name_some name Hne) in Ht. discriminate.
  - intros _. split; reflexivity.
Qed.

Lemma render_keeps_names (r r' : Renderer) (model : Model)
    (params : EffectParameters) (frame frame' : Frame) (t_enter t_now : Q)
    (h h' : Heap) :
  Renderer_render r model params frame t_enter t_now h = ok (r', frame', h') ->
  fade r' <> None ->
  fade r <> None /\
  activePlaylist r' = activePlaylist r /\ nextPlaylist r' = nextPlaylist r.
Proof.
  unfold Renderer_render. intros Hr Hfade.
  destruct (fade r) as [f|] eqn:Ef.
  - destruct (Fade_render f model params frame t_enter t_now h)
      as [e|[[f1 fr] hh]]; [discriminate|].
    rewrite rbind_ok in Hr. destruct (done f1).
    + rewrite rbind_ok in Hr.
      destruct (GammaLayer.render _ fr) as [e|out]; [discriminate|].
      inversion Hr; subst. exfalso. apply Hfade. reflexivity.
    + rewrite rbind_ok in Hr.
      destruct (GammaLayer.render _ fr) as [e|out]; [discriminate|].
      inversion Hr; subst. repeat split. discriminate.
  - exfalso. apply Hfade.
    destruct (truthy_name (activePlaylist r)).
    + destruct (_active r) as [e|a]; [discriminate|]. rewrite rbind_ok in Hr.
      destruct (selection_of selection a) as [e|ls]; [discriminate|].
      rewrite rbind_ok in Hr.
      destruct (render_layers ls model params frame h) as [fr hh].
      rewrite rbind_ok in Hr.
      destruct (GammaLayer.render _ fr) as [e|out]; [discriminate|].
      inversion Hr; subst. exact Ef.
    + rewrite rbind_ok in Hr.
      destruct (GammaLayer.render _ frame) as [e|out]; [discriminate|].
      inversion Hr; subst. exact Ef.
Qed.

Lemma waiting_keeps_names (r r' : Renderer) :
  waiting r r' ->
  fade r <> None ->
  fade r' <> None /\
  activePlaylist r' = activePlaylist r /\ nextPlaylist r' = nextPlaylist r.
Proof.
  intros Hw Hf. induction Hw as [|r r' r'' ? ? ? ? ? ? ? ? _ IH Hcall Hne].
  - repeat split. exact Hf.
  - destruct (IH Hf) as (_ & Ha & Hn).
    destruct (render_keeps_names _ _ _ _ _ _ _ _ _ _ Hcall Hne) as (_ & Ha' & Hn').
    split; [exact Hne|]. split; congruence.
Qed.

Lemma render_commits_pending (r r' : Renderer) (name : string) (model : Model)
    (params : EffectParameters) (frame frame' : Frame) (t_enter t_now : Q)
    (h h' : Heap) :
  fade r <> None ->
  nextPlaylist r = Some name ->
  name <> ""%string ->
  Renderer_render r model params frame t_enter t_now h = ok (r', frame', h') ->
  fade r' = None ->
  activePlaylist r' = Some name /\ nextPlaylist r' = None.
Proof.
  unfold Renderer_render. intros Hf Hn Hne Hr Hnone.
  destruct (fade r) as [f|]; [|exfalso; apply Hf; reflexivity].
  destruct (Fade_render f model params frame t_enter t_now h)
    as [e|[[f1 fr] hh]]; [discriminate|].
  rewrite rbind_ok in Hr. destruct (done f1).
  - rewrite Hn, (truthy_name_some name Hne), rbind_ok in Hr.
    destruct (GammaLayer.render _ fr) as [e|out]; [discriminate|].
    inversion Hr; subst. split; reflexivity.
  - rewrite rbind_ok in Hr.
    destruct (GammaLayer.render _ fr) as [e|out]; [discriminate|].
    inversion Hr; subst. discriminate Hnone.
Qed.

(** One call of [render] leaves the playlists, the fade mode and the gamma
    layer as they are. *)
Lemma render_configuration_step
    (r r' : Renderer) (model : Model) (params : EffectParameters)
    (frame frame' : Frame) (t_enter t_now : Q) (h h' : Heap) :
  Renderer_render r model params frame t_enter t_now h = ok (r', frame', h') ->
  playlists r' = playlists r /\
  useFastFades r' = useFastFades r /\
  gammaLayer r' = gammaLayer r.
Proof.
  unfold Renderer_render. intros Hr.
  destruct (fade r) as [f|] eqn:Ef.
  - destruct (Fade_render f model params frame t_enter t_now h)
      as [e|[[f1 fr] hh]]; [discriminate|].
    rewrite rbind_ok in Hr. destruct (done f1).
    + rewrite rbind_ok in Hr.
      destruct (GammaLayer.render _ fr) as [e|out]; [discriminate|].
      inversion Hr; subst.
      destruct (truthy_name (nextPlaylist r)); repeat split.
    + rewrite rbind_ok in Hr.
      destruct (GammaLayer.render _ fr) as [e|out]; [discriminate|].
      inversion Hr; subst. repeat split.
  - destruct (truthy_name (activePlaylist r)).
    + destruct (_active r) as [e|a]; [discriminate|]. rewrite rbind_ok in Hr.
      destruct (selection_of selection a) as [e|ls]; [discriminate|].
      rewrite rbind_ok in Hr.
      destruct (render_layers ls model params frame h) as [fr hh].
      rewrite rbind_ok in Hr.
      destruct (GammaLayer.render _ fr) as [e|out]; [discriminate|].
      inversion Hr; subst. repeat split.
    + rewrite rbind_ok in Hr.
      destruct (GammaLayer.render _ frame) as [e|out]; [discriminate|].
      inversion Hr; subst. repeat split.
Qed.

(** While a linear fade stays in place, its scenes and its duration are
    the ones it was built with. *)
Lemma waiting_linear_fade
    (r1 r2 : Renderer) (d : bool) (sl el : option (list Layer)) (dur : Q)
    (st : option Q) :
  waiting r1 r2 ->
  fade r1 = Some (Linear d sl el dur st) ->
  exists d' st', fade r2 = Some (Linear d' sl el dur st').
Proof.
  intros Hw Hf. induction Hw as [|r r' r'' ? ? ? ? ? ? ? ? _ IH Hcall Hne].
  - eauto.
  - destruct (IH Hf) as (d' & st' & Hf'). clear IH.
    unfold Renderer_render in Hcall. rewrite Hf' in Hcall.
    destruct (Fade_render (Linear d' sl el dur st') _ _ _ _ _ _)
      as [e|[[f1 fr] hh]] eqn:E; [discriminate|].
    destruct (Fade_render_Linear_start _ _ _ _ _ _ _ _ _ _ _ _ _ _ E) as [d'' ->].
    rewrite rbind_ok in Hcall. simpl done in Hcall. destruct d''.
    + rewrite rbind_ok in Hcall.
      destruct (GammaLayer.render _ fr) as [e|out]; [discriminate|].
      inversion Hcall; subst. exfalso. apply Hne. reflexivity.
    + rewrite rbind_ok in Hcall.
      destruct (GammaLayer.render _ fr) as [e|out]; [discriminate|].
      inversion Hcall; subst. simpl. eauto.
Qed.

Lemma waiting_keeps_gamma (r1 r2 : Renderer) :
  waiting r1 r2 -> gammaLayer r2 = gammaLayer r1.
Proof.
  intros Hw. induction Hw as [|r r' r'' ? ? ? ? ? ? ? ? _ IH Hcall Hne].
  - reflexivity.
  - destruct (render_configuration_step _ _ _ _ _ _ _ _ _ _ Hcall) as (_ & _ & Hg).
    congruence.
Qed.

(** The frame rendered when the duration of the renderer's linear fade has
    passed: the fade is cleared and the pending playlist becomes the
    active one. *)
Lemma linear_fade_completes
    (r : Renderer) (d : bool) (sl el : option (list Layer)) (dur : Q)
    (st : option Q) (target : string) (model : Model) (params : EffectParameters)
    (frame : Frame) (t_enter t_now : Q) (h : Heap) :
  fade r = Some (Linear d sl el dur st) ->
  nextPlaylist r = Some target ->
  target <> ""%string ->
  GammaLayer.well_formed (gammaLayer r) = true ->
  0 < dur ->
  dur <= t_now - start_instant st t_enter ->
  exists r' out h',
    Renderer_render r model params frame t_enter t_now h = ok (r', out, h') /\
    fade r' = None /\
    activePlaylist r' = Some target /\
    nextPlaylist r' = None.
Proof.
  intros Hf Hn Htarget Hg Hpos Htime.
  unfold Renderer_render. rewrite Hf, Fade_render_Linear. cbv zeta.
  rewrite (render_scene_pair el).
  rewrite (Qeq_bool_pos dur Hpos).
  assert (Hdone : Qle_bool 1 ((t_now - start_instant st t_enter) / dur) = true).
  { apply Qle_bool_iff. apply Qle_shift_div_l; [exact Hpos|].
    rewrite Qmult_1_l. exact Htime. }
  rewrite Hdone, rbind_ok. simpl done. cbv iota.
  rewrite Hn, (truthy_name_some target Htarget), rbind_ok.
  cbn [gammaLayer set_fade set_names].
  destruct (interp_frame_total
              (fst (render_scene el model params frame h))
              (gammaLayer r) Hg) as [out [Hout _]].
  rewrite Hout, rbind_ok.
  eexists. eexists. eexists. split; [reflexivity|]. repeat split.
Qed.

(** C10: [advanceCurrentPlaylist] installs a linear fade within the active
    playlist and leaves the pending playlist name of an earlier
    [swapPlaylists] in place.  However many frames that fade then takes,
    the call of [render] in which it completes makes the pending playlist
    the active one.  Such a call exists: with a positive fade time and
    gamma tables that [numpy.interp] accepts, every call of [render] made
    once the fade time has passed since the fade's start instant returns,
    clears the fade and makes the pending playlist the active one. *)
Theorem C10_stale_pending_committed
    (self : Renderer) (fadeTime : Q) (key pending : string) (p : Playlist) :
  activePlaylist self = Some key ->
  key <> ""%string ->
  playlists self !! key = Some p ->
  nextPlaylist self = Some pending ->
  pending <> ""%string ->
  0 < fadeTime ->
  GammaLayer.well_formed (gammaLayer self) = true ->
  exists self1,
    advanceCurrentPlaylist self fadeTime = ok self1 /\
    fade self1 =
      Some (LinearFade (Some (selection p)) (Some (selection (advance p))) fadeTime) /\
    activePlaylist self1 = Some key /\
    nextPlaylist self1 = Some pending /\
    (forall self2 self3 model params frame t_enter t_now h frame' h',
       waiting self1 self2 ->
       Renderer_render self2 model params frame t_enter t_now h
         = ok (self3, frame', h') ->
       fade self3 = None ->
       activePlaylist self3 = Some pending /\ nextPlaylist self3 = None) /\
    (forall self2 model params frame t_enter t_now h,
       waiting self1 self2 ->
       fadeTime <= t_now - start_instant (fade_start self2) t_enter ->
       exists self3 frame' h',
         Renderer_render self2 model params frame t_enter t_now h
           = ok (self3, frame', h') /\
         fade self3 = None /\
         activePlaylist self3 = Some pending /\
         nextPlaylist self3 = None).
Proof.
  intros Hact Hkey Hp Hnext Hpending Hpos Hg.
  eexists. split.
  { unfold advanceCurrentPlaylist, _active, _get.
    rewrite Hact, (truthy_name_some key Hkey), Hp, rbind_ok. reflexivity. }
  split; [reflexivity|]. split; [exact Hact|]. split; [exact Hnext|].
  split.
  - intros self2 self3 model params frame t_enter t_now h frame' h' Hw Hr Hnone.
    match type of Hw with
    | waiting ?r1 _ =>
        assert (Hf1 : fade r1 <> None) by discriminate;
        destruct (waiting_keeps_names r1 self2 Hw Hf1) as (Hf2 & Ha2 & Hn2)
    end.
    simpl in Hn2.
    eapply render_commits_pending; [exact Hf2 | | exact Hpending | exact Hr | exact Hnone].
    rewrite Hn2. exact Hnext.
  - intros self2 model params frame t_enter t_now h Hw Htime.
    match type of Hw with
    | waiting ?r1 _ =>
        assert (Hf1 : fade r1 <> None) by discriminate;
        destruct (waiting_keeps_names r1 self2 Hw Hf1) as (_ & _ & Hn2);
        pose proof (waiting_keeps_gamma r1 self2 Hw) as Hg2;
        destruct (waiting_linear_fade r1 self2 false (Some (selection p))
                    (Some (selection (advance p))) fadeTime None Hw eq_refl)
          as (d' & st' & Hf2)
    end.
    simpl in Hn2. simpl in Hg2.
    unfold fade_start in Htime. rewrite Hf2 in Htime.
    apply (linear_fade_completes self2 d' (Some (selection p))
             (Some (selection (advance p))) fadeTime st' pending); try assumption.
    + rewrite Hn2. exact Hnext.
    + rewrite Hg2. exact Hg.
Qed.

(** *** MultiplierLayer *)

Lemma frame_zeros_same_shape (f g : Frame) :
  length f = length g -> frame_zeros f = frame_zeros g.
Proof.
  revert g. induction f as [|a f IH]; intros [|b g] H; simpl in H;
    try discriminate; [reflexivity|].
  simpl. f_equal. apply IH. lia.
Qed.

(** What a multiplier adds does not depend on what is in the frame: on
    two frames of one shape it fails alike or adds the same product, and
    leaves the layers in the same state. *)
Theorem multiplier_ignores_frame
    (layer1 layer2 : Layer) (model : Model) (params : EffectParameters)
    (f g : Frame) (h : Heap) :
  length f = length g ->
  exists h',
    (MultiplierLayer_render layer_render layer1 layer2 model params f h = (h', None) /\
     MultiplierLayer_render layer_render layer1 layer2 model params g h = (h', None)) \/
    (exists product,
       MultiplierLayer_render layer_render layer1 layer2 model params f h
         = (h', Some (frame_add f product)) /\
       MultiplierLayer_render layer_render layer1 layer2 model params g h
         = (h', Some (frame_add g product))).
Proof.
  intros Hlen. unfold MultiplierLayer_render. cbv zeta.
  rewrite <- (frame_zeros_same_shape f g Hlen).
  destruct (layer_render layer1 model params (frame_zeros f) h) as [h1 [temp1|]].
  - destruct (layer_render layer2 model params (frame_zeros f) h1) as [h2 [temp2|]].
    + exists h2. right. exists (frame_mul temp1 temp2). split; reflexivity.
    + exists h2. left. split; reflexivity.
  - exists h1. left. split; reflexivity.
Qed.

(** *** Done flags *)

Lemma coherent_constructors
    (startLayers middleLayers endLayers : option (list Layer)) (d1 d2 : Q) :
  coherent (LinearFade startLayers endLayers d1) /\
  coherent (FastFade startLayers endLayers d1) /\
  coherent (TwoStepLinearFade startLayers middleLayers endLayers d1 d2).
Proof. simpl. repeat split. Qed.

(** A fade that is done stays done, however often it is rendered again,
    and the done flags of a two-step fade keep agreeing with those of its
    sub-fades. *)
Theorem done_fade_stays_done
    (f f' : Fade) (model : Model) (params : EffectParameters)
    (frame frame' : Frame) (t_enter t_now : Q) (h h' : Heap) :
  coherent f ->
  Fade_render f model params frame t_enter t_now h = ok (f', frame', h') ->
  coherent f' /\ (done f = true -> done f' = true).
Proof.
  revert f' frame frame' h h'.
  induction f as [d sl el dur st|d sl el f1 IH1 f2 IH2];
    intros f' frame frame' h h' Hc.
  - rewrite Fade_render_Linear. cbv zeta.
    destruct (render_scene el model params frame h) as [fr hh].
    destruct (Qeq_bool dur 0); [discriminate|].
    destruct (Qle_bool 1 _).
    + intros H. inversion H. split; [exact I|reflexivity].
    + destruct (truthy_layers sl).
      * destruct (render_scene sl model params _ hh) as [fr2 hh2].
        intros H. inversion H. split; [exact I|]. intros Hd. exact Hd.
      * intros H. inversion H. split; [exact I|]. intros Hd. exact Hd.
  - destruct Hc as (Hd & Hc1 & Hc2). rewrite Fade_render_TwoStep.
    destruct (done f1) eqn:E1; simpl negb; cbv iota.
    + destruct (Fade_render f2 model params frame t_enter t_now h)
        as [e|[[f2' fr] hh]] eqn:E2; [discriminate|].
      rewrite rbind_ok. intros H. inversion H; subst.
      destruct (IH2 _ _ _ _ _ Hc2 E2) as [Hc2' Hdone].
      split; [simpl; repeat split; assumption|].
      simpl. exact Hdone.
    + destruct (Fade_render f1 model params frame t_enter t_now h)
        as [e|[[f1' fr] hh]] eqn:E2; [discriminate|].
      rewrite rbind_ok. intros H. inversion H; subst.
      destruct (IH1 _ _ _ _ _ Hc1 E2) as [Hc1' _].
      split; [simpl; repeat split; assumption|].
      simpl. intros Hd. exact Hd.
Qed.

(** *** FastFade *)

Lemma fast_fade_shape
    (startLayers endLayers : option (list Layer)) (duration : Q) (f : Fade) :
  rendered (FastFade startLayers endLayers duration) f ->
  exists d d1 s1 d2 s2,
    f = TwoStep d startLayers endLayers
          (Linear d1 startLayers None (duration / 2) s1)
          (Linear d2 None endLayers (duration / 2) s2).
Proof.
  intros Hr. remember (FastFade startLayers endLayers duration) as f0 eqn:E0.
  induction Hr as [|f0 f' f'' ? ? ? ? ? ? ? ? _ IH Hcall]; subst.
  - exists false, false, None, false, None. reflexivity.
  - destruct (IH eq_refl) as (d & d1 & s1 & d2 & s2 & ->).
    rewrite Fade_render_TwoStep in Hcall. simpl done in Hcall.
    destruct d1; simpl negb in Hcall; cbv iota in Hcall.
    + destruct (Fade_render (Linear d2 None endLayers (duration / 2) s2) _ _ _ _ _ _)
        as [e|[[f2' fr] hh]] eqn:E2; [discriminate|].
      rewrite rbind_ok in Hcall. inversion Hcall; subst.
      destruct (Fade_render_Linear_start _ _ _ _ _ _ _ _ _ _ _ _ _ _ E2) as [d' ->].
      repeat eexists.
    + destruct (Fade_render (Linear false startLayers None (duration / 2) s1) _ _ _ _ _ _)
        as [e|[[f1' fr] hh]] eqn:E2; [discriminate|].
      rewrite rbind_ok in Hcall. inversion Hcall; subst.
      destruct (Fade_render_Linear_start _ _ _ _ _ _ _ _ _ _ _ _ _ _ E2) as [d' ->].
      repeat eexists.
Qed.

(** A fast fade never renders its two scenes in one call.  While the
    fade-out runs, the frame and the state of the layers that a call of
    [render] leaves are the same whatever the end scene is; once the
    fade-out is done, they are the same whatever the start scene is. *)
Theorem fast_fade_one_scene_per_call
    (startLayers endLayers : option (list Layer)) (duration : Q) (f : Fade) :
  rendered (FastFade startLayers endLayers duration) f ->
  exists d d1 s1 d2 s2,
    f = TwoStep d startLayers endLayers
          (Linear d1 startLayers None (duration / 2) s1)
          (Linear d2 None endLayers (duration / 2) s2) /\
    forall model params frame t_enter t_now h,
      (d1 = false ->
       forall other,
         frame_and_heap (Fade_render f model params frame t_enter t_now h) =
         frame_and_heap
           (Fade_render
              (TwoStep d startLayers other
                 (Linear d1 startLayers None (duration / 2) s1)
                 (Linear d2 None other (duration / 2) s2))
              model params frame t_enter t_now h)) /\
      (d1 = true ->
       forall other,
         frame_and_heap (Fade_render f model params frame t_enter t_now h) =
         frame_and_heap
           (Fade_render
              (TwoStep d other endLayers
                 (Linear d1 other None (duration / 2) s1)
                 (Linear d2 None endLayers (duration / 2) s2))
              model params frame t_enter t_now h)).
Proof.
  intros Hr.
  destruct (fast_fade_shape _ _ _ _ Hr) as (d & d1 & s1 & d2 & s2 & ->).
  exists d, d1, s1, d2, s2. split; [reflexivity|].
  intros model params frame t_enter t_now h. split; intros -> other.
  - rewrite !Fade_render_TwoStep. simpl done. simpl negb. cbv iota.
    destruct (Fade_render (Linear false startLayers None (duration / 2) s1) _ _ _ _ _ _)
      as [e|[[f1' fr] hh]]; reflexivity.
  - rewrite !Fade_render_TwoStep. simpl done. simpl negb. cbv iota.
    destruct (Fade_render (Linear d2 None endLayers (duration / 2) s2) _ _ _ _ _ _)
      as [e|[[f2' fr] hh]]; reflexivity.
Qed.

(** *** A fade time of zero *)

(** [advanceCurrentPlaylist] accepts a fade time of zero, and every call
    of [render] after it raises ZeroDivisionError. *)
Theorem zero_fade_time_raises
    (self : Renderer) (fadeTime : Q) (key : string) (p : Playlist)
    (model : Model) (params : EffectParameters) (frame : Frame)
    (t_enter t_now : Q) (h : Heap) :
  activePlaylist self = Some key ->
  key <> ""%string ->
  playlists self !! key = Some p ->
  fadeTime == 0 ->
  exists self1,
    advanceCurrentPlaylist self fadeTime = ok self1 /\
    Renderer_render self1 model params frame t_enter t_now h
      = raise ZeroDivisionError.
Proof.
  intros Hact Hkey Hp Hz. eexists. split.
  { unfold advanceCurrentPlaylist, _active, _get.
    rewrite Hact, (truthy_name_some key Hkey), Hp, rbind_ok. reflexivity. }
  unfold Renderer_render. cbn [fade set_fade].
  unfold LinearFade. rewrite Fade_render_Linear. cbv zeta.
  destruct (render_scene _ model params frame h) as [fr hh].
  assert (E : Qeq_bool fadeTime 0 = true) by (apply Qeq_bool_iff; exact Hz).
  rewrite E. reflexivity.
Qed.

(** *** The constructor of the renderer *)

(** [Renderer(...)] fails on an empty set of playlists, takes a given
    active name as it is (it does not look it up), takes the only
    playlist when no name is given, and fails when no name is given and
    there are several playlists.  The renderer it builds has no fade and
    no pending playlist. *)
Theorem Renderer_init_cases
    (power : Q -> Q -> Q) (ps : gmap string Playlist)
    (active : option string) (fast : bool) (gamma : Q) :
  (ps = ∅ ->
   Renderer_init (Layer := Layer) power ps active fast gamma =
     raise (Exception "Can't define a renderer without any playlists")) /\
  (ps <> ∅ -> truthy_name active = true ->
   Renderer_init (Layer := Layer) power ps active fast gamma =
     ok {| playlists := ps; activePlaylist := active; nextPlaylist := None;
           useFastFades := fast; fade := None;
           gammaLayer := GammaLayer.init power gamma |}) /\
  (size ps = 1%nat -> truthy_name active = false ->
   exists name p,
     ps !! name = Some p /\
     Renderer_init (Layer := Layer) power ps active fast gamma =
       ok {| playlists := ps; activePlaylist := Some name; nextPlaylist := None;
             useFastFades := fast; fade := None;
             gammaLayer := GammaLayer.init power gamma |}) /\
  ((2 <= size ps)%nat -> truthy_name active = false ->
   Renderer_init (Layer := Layer) power ps active fast gamma =
     raise (Exception
       "Can't define multi-playlist renderer without specifying active playlist")).
Proof.
  unfold Renderer_init. repeat split.
  - intros ->. destruct (decide (∅ = ∅)); [reflexivity|contradiction].
  - intros Hne Ht. destruct (decide (ps = ∅)); [contradiction|].
    rewrite Ht. reflexivity.
  - intros Hsize Ht.
    destruct (decide (ps = ∅)) as [->|_]; [rewrite map_size_empty in Hsize; lia|].
    rewrite Ht. rewrite <- length_map_to_list in Hsize.
    destruct (map_to_list ps) as [|[name p] [|? ?]] eqn:E; simpl in Hsize; try lia.
    exists name, p. split; [|reflexivity].
    apply elem_of_map_to_list. rewrite E. apply list_elem_of_here.
  - intros Hsize Ht.
    destruct (decide (ps = ∅)) as [->|_]; [rewrite map_size_empty in Hsize; lia|].
    rewrite Ht. rewrite <- length_map_to_list in Hsize.
    destruct (map_to_list ps) as [|[name p] [|? ?]] eqn:E; simpl in Hsize; try lia;
      reflexivity.
Qed.

(** *** What [render] leaves alone *)

(** However many frames are rendered, [render] never touches the
    playlists (no cursor moves), the fade mode or the gamma layer. *)
Theorem render_keeps_configuration (r r' : Renderer) :
  renders r r' ->
  playlists r' = playlists r /\
  useFastFades r' = useFastFades r /\
  gammaLayer r' = gammaLayer r.
Proof.
  intros Hr. induction Hr as [|r r' r'' ? ? ? ? ? ? ? ? _ IH Hcall].
  - repeat split.
  - destruct IH as (Hp & Hu & Hg).
    destruct (render_configuration_step _ _ _ _ _ _ _ _ _ _ Hcall) as (Hp' & Hu' & Hg').
    repeat split; congruence.
Qed.

(** Without a fade: a renderer without an active name applies the gamma
    layer alone and stays as it is, and a renderer whose active name is
    not among its playlists raises KeyError. *)
Theorem render_without_playlist
    (self : Renderer) (model : Model) (params : EffectParameters)
    (frame : Frame) (t_enter t_now : Q) (h : Heap) :
  fade self = None ->
  (truthy_name (activePlaylist self) = false ->
   Renderer_render self model params frame t_enter t_now h =
     try! out := GammaLayer.render (gammaLayer self) frame in ok (self, out, h)) /\
  (forall key,
     activePlaylist self = Some key -> key <> ""%string ->
     playlists self !! key = None ->
     Renderer_render self model params frame t_enter t_now h = raise (KeyError key)).
Proof.
  intros Hf. unfold Renderer_render. rewrite Hf. split.
  - intros Ht. rewrite Ht, rbind_ok. reflexivity.
  - intros key Hact Hkey Hnone.
    rewrite Hact, (truthy_name_some key Hkey).
    unfold _active, _get. rewrite Hact, (truthy_name_some key Hkey), Hnone.
    reflexivity.
Qed.

(** *** advanceCurrentPlaylist *)

(** [advanceCurrentPlaylist] raises when there is no active name, and
    KeyError when the active name is not among the playlists.  When it
    succeeds the playlist under the active name has been advanced once,
    both names, the fade mode and the gamma layer are as before, and the
    fade it installs is a fresh one: not started, not done, whatever fade
    was in flight. *)
Theorem advanceCurrentPlaylist_cases (self : Renderer) (fadeTime : Q) :
  (truthy_name (activePlaylist self) = false ->
   advanceCurrentPlaylist self fadeTime =
     raise (Exception "Can't advance playlist - no playlist is currently active")) /\
  (forall key,
     activePlaylist self = Some key -> key <> ""%string ->
     playlists self !! key = None ->
     advanceCurrentPlaylist self fadeTime = raise (KeyError key)) /\
  (forall key p,
     activePlaylist self = Some key -> key <> ""%string ->
     playlists self !! key = Some p ->
     exists self1,
       advanceCurrentPlaylist self fadeTime = ok self1 /\
       playlists self1 !! key = Some (advance p) /\
       activePlaylist self1 = Some key /\
       nextPlaylist self1 = nextPlaylist self /\
       useFastFades self1 = useFastFades self /\
       gammaLayer self1 = gammaLayer self /\
       fade self1 =
         Some (Linear false (Some (selection p)) (Some (selection (advance p)))
                 fadeTime None)).
Proof.
  unfold advanceCurrentPlaylist, _active, _get. repeat split.
  - intros Ht. destruct (activePlaylist self) as [key|]; [|reflexivity].
    rewrite Ht, rbind_ok. reflexivity.
  - intros key Hact Hkey Hnone.
    rewrite Hact, (truthy_name_some key Hkey), Hnone. reflexivity.
  - intros key p Hact Hkey Hp.
    rewrite Hact, (truthy_name_some key Hkey), Hp, rbind_ok.
    eexists. split; [reflexivity|].
    cbn [playlists activePlaylist nextPlaylist useFastFades gammaLayer fade
         set_fade set_playlists].
    split; [apply lookup_insert_eq|]. split; [exact Hact|]. repeat split.
Qed.

(** *** swapPlaylists *)

Variable transitionFadeTime : Layer -> Q.

Local Abbreviation swapPlaylists :=
  (swapPlaylists transitionFadeTime selection advance).
Local Abbreviation _fadeTimeForTransition :=
  (_fadeTimeForTransition transitionFadeTime selection).

Lemma max_fold (rest : list Q) (x : Q) :
  let m := fold_left (fun m y => if Qltb m y then y else m) rest x in
  (m = x \/ In m rest) /\ x <= m /\ Forall (fun y => y <= m) rest.
Proof.
  revert x. induction rest as [|y rest IH]; intros x; cbv zeta; cbn [fold_left].
  - split; [left; reflexivity|]. split; [apply Qle_refl | constructor].
  - specialize (IH (if Qltb x y then y else x)). cbv zeta in IH.
    destruct IH as (Hin & Hle & Hall).
    destruct (Qltb x y) eqn:E.
    + apply Qltb_lt in E. repeat split.
      * right. destruct Hin as [->|Hin]; [left; reflexivity | right; exact Hin].
      * eapply Qle_trans; [apply Qlt_le_weak; exact E | exact Hle].
      * constructor; assumption.
    + apply Qltb_ge in E. repeat split.
      * destruct Hin as [->|Hin]; [left; reflexivity | right; right; exact Hin].
      * exact Hle.
      * constructor; [eapply Qle_trans; eassumption | exact Hall].
Qed.

(** The fade time through an intermediate playlist is the longest
    [transitionFadeTime] among the layers of its current selection; on an
    empty selection [max] raises ValueError. *)
Theorem fade_time_is_longest (p : Playlist) :
  (selection p = [] -> _fadeTimeForTransition p = raise ValueError) /\
  (selection p <> [] ->
   exists m,
     _fadeTimeForTransition p = ok m /\
     (exists layer, In layer (selection p) /\ m = transitionFadeTime layer) /\
     (forall layer, In layer (selection p) -> transitionFadeTime layer <= m)).
Proof.
  unfold _fadeTimeForTransition, max_list. split.
  - intros ->. reflexivity.
  - intros Hne. destruct (selection p) as [|l0 ls]; [contradiction|].
    cbn [List.map]. eexists. split; [reflexivity|].
    destruct (max_fold (List.map transitionFadeTime ls) (transitionFadeTime l0))
      as (Hin & Hle & Hall).
    split.
    + destruct Hin as [->|Hin].
      * exists l0. split; [left; reflexivity | reflexivity].
      * apply List.in_map_iff in Hin. destruct Hin as [l [Hl Hinl]].
        exists l. split; [right; exact Hinl | symmetry; exact Hl].
    + intros layer [<-|Hlayer]; [exact Hle|].
      rewrite List.Forall_forall in Hall. apply Hall.
      apply List.in_map. exact Hlayer.
Qed.

(** Without an intermediate playlist, or in the fast mode whatever the
    intermediate playlist, [swapPlaylists] records the target as pending,
    leaves the active name as it is, installs a fade from the current
    selection of the active playlist to that of the target (a fast fade
    in the fast mode, a linear one otherwise), and advances the active
    playlist, after taking its selection, when asked to; when not asked
    to, no playlist is touched. *)
Theorem swapPlaylists_direct
    (self : Renderer) (key target : string) (p q : Playlist)
    (intermediate : option string) (advanceAfterFadeOut : bool) (fadeTime : Q) :
  activePlaylist self = Some key ->
  key <> ""%string ->
  playlists self !! key = Some p ->
  target <> ""%string ->
  playlists self !! target = Some q ->
  useFastFades self = true \/ truthy_name intermediate = false ->
  exists r,
    swapPlaylists self (Some target) intermediate advanceAfterFadeOut fadeTime = ok r /\
    activePlaylist r = Some key /\
    nextPlaylist r = Some target /\
    useFastFades r = useFastFades self /\
    gammaLayer r = gammaLayer self /\
    fade r =
      Some (if useFastFades self
            then FastFade (Some (selection p)) (Some (selection q)) fadeTime
            else LinearFade (Some (selection p)) (Some (selection q)) fadeTime) /\
    (if advanceAfterFadeOut
     then playlists r !! key = Some (advance p)
     else playlists r = playlists self).
Proof.
  intros Hact Hkey Hp Htarget Hq Hmode.
  destruct self as [ps act nxt fast fd gl]. simpl in Hact, Hp, Hq, Hmode. subst act.
  unfold swapPlaylists, _active, _next, _get.
  cbn [useFastFades nextPlaylist playlists activePlaylist set_names].
  rewrite (truthy_name_some key Hkey), Hp, rbind_ok.
  rewrite (truthy_name_some target Htarget), Hq.
  unfold selection_of. rewrite !rbind_ok.
  assert (Hdone : forall r0 : Renderer,
            playlists r0 = ps ->
            exists r,
              ok (if advanceAfterFadeOut then advance_at advance r0 key else r0) = ok r /\
              activePlaylist r = activePlaylist r0 /\
              nextPlaylist r = nextPlaylist r0 /\
              useFastFades r = useFastFades r0 /\
              gammaLayer r = gammaLayer r0 /\
              fade r = fade r0 /\
              (if advanceAfterFadeOut
               then playlists r !! key = Some (advance p)
               else playlists r = ps)).
  { intros r0 Hr0. eexists. split; [reflexivity|].
    destruct advanceAfterFadeOut; [|repeat split; exact Hr0].
    unfold advance_at. rewrite Hr0, Hp.
    cbn [playlists activePlaylist nextPlaylist useFastFades gammaLayer fade
         set_playlists].
    repeat split. apply lookup_insert_eq. }
  destruct fast.
  - rewrite rbind_ok. cbn [activePlaylist set_fade set_names].
    match goal with
    | |- context [advance_at advance ?r0 key] =>
        destruct (Hdone r0 eq_refl) as (r & Hr & H2 & H3 & H4 & H5 & H6 & H7)
    end.
    exists r. split.
    { rewrite <- Hr. destruct advanceAfterFadeOut; reflexivity. }
    rewrite H2, H3, H4, H5, H6. repeat split. exact H7.
  - destruct Hmode as [Hc|Hmid]; [discriminate|]. rewrite Hmid, rbind_ok.
    cbn [activePlaylist set_fade set_names].
    match goal with
    | |- context [advance_at advance ?r0 key] =>
        destruct (Hdone r0 eq_refl) as (r & Hr & H2 & H3 & H4 & H5 & H6 & H7)
    end.
    exists r. split.
    { rewrite <- Hr. destruct advanceAfterFadeOut; reflexivity. }
    rewrite H2, H3, H4, H5, H6. repeat split. exact H7.
Qed.

(** Through an intermediate playlist, outside the fast mode,
    [swapPlaylists] installs a two-step linear fade: a quarter of a second
    to the selection of the intermediate playlist, then the longest
    transition time of that selection to the target; the three selections
    are taken before any playlist is advanced.  When asked to advance, an
    active playlist that is also the intermediate one is advanced twice,
    and an active and an intermediate playlist that differ are advanced
    once each; when not asked to, no playlist is touched. *)
Theorem swapPlaylists_through
    (self : Renderer) (key target mid : string) (p q m : Playlist)
    (advanceAfterFadeOut : bool) (fadeTime duration_2 : Q) :
  activePlaylist self = Some key ->
  key <> ""%string ->
  playlists self !! key = Some p ->
  target <> ""%string ->
  playlists self !! target = Some q ->
  mid <> ""%string ->
  playlists self !! mid = Some m ->
  _fadeTimeForTransition m = ok duration_2 ->
  useFastFades self = false ->
  exists r,
    swapPlaylists self (Some target) (Some mid) advanceAfterFadeOut fadeTime = ok r /\
    activePlaylist r = Some key /\
    nextPlaylist r = Some target /\
    useFastFades r = false /\
    gammaLayer r = gammaLayer self /\
    fade r =
      Some (TwoStepLinearFade (Some (selection p)) (Some (selection m))
              (Some (selection q)) (1#4) duration_2) /\
    (if advanceAfterFadeOut
     then (mid = key -> playlists r !! key = Some (advance (advance p))) /\
          (m <> p ->
           playlists r !! key = Some (advance p) /\
           playlists r !! mid = Some (advance m))
     else playlists r = playlists self).
Proof.
  intros Hact Hkey Hp Htarget Hq Hmid Hm Hdur Hfast.
  destruct self as [ps act nxt fast fd gl].
  simpl in Hact, Hp, Hq, Hm, Hfast. subst act fast.
  unfold swapPlaylists, _active, _next, _get.
  cbn [useFastFades nextPlaylist playlists activePlaylist set_names].
  rewrite (truthy_name_some key Hkey), Hp, rbind_ok.
  rewrite (truthy_name_some target Htarget), Hq, (truthy_name_some mid Hmid), Hm.
  unfold selection_of. rewrite !rbind_ok.
  fold (_fadeTimeForTransition m). rewrite Hdur, rbind_ok.
  destruct advanceAfterFadeOut.
  2:{ rewrite rbind_ok. eexists. split; [reflexivity|]. repeat split. }
  rewrite rbind_ok. unfold advance_at.
  cbn [activePlaylist playlists set_fade set_names set_playlists].
  rewrite Hm. cbn [activePlaylist playlists set_fade set_names set_playlists].
  destruct (decide (mid = key)) as [->|Hne].
  - rewrite lookup_insert_eq. rewrite Hp in Hm. inversion Hm; subst.
    eexists. split; [reflexivity|].
    cbn [activePlaylist playlists set_fade set_names set_playlists
         nextPlaylist useFastFades fade gammaLayer].
    repeat split.
    + intros _. apply lookup_insert_eq.
    + exfalso. apply H. reflexivity.
    + exfalso. apply H. reflexivity.
  - rewrite lookup_insert_ne by exact Hne. rewrite Hp.
    eexists. split; [reflexivity|].
    cbn [activePlaylist playlists set_fade set_names set_playlists
         nextPlaylist useFastFades fade gammaLayer].
    repeat split.
    + intros E. exfalso. apply Hne. exact E.
    + apply lookup_insert_eq.
    + rewrite lookup_insert_ne by congruence. apply lookup_insert_eq.
Qed.

(** A target that is not among the playlists makes [swapPlaylists] raise
    KeyError, and a missing target AttributeError, as the target playlist
    is asked for its selection. *)
Theorem swapPlaylists_bad_target
    (self : Renderer) (key : string) (p : Playlist)
    (advanceAfterFadeOut : bool) (fadeTime : Q) :
  activePlaylist self = Some key ->
  key <> ""%string ->
  playlists self !! key = Some p ->
  (forall target,
     target <> ""%string -> playlists self !! target = None ->
     swapPlaylists self (Some target) None advanceAfterFadeOut fadeTime
       = raise (KeyError target)) /\
  swapPlaylists self None None advanceAfterFadeOut fadeTime
    = raise (AttributeError "selection").
Proof.
  intros Hact Hkey Hp.
  unfold swapPlaylists, _active, _next, _get.
  rewrite Hact, (truthy_name_some key Hkey), Hp, rbind_ok.
  cbn [useFastFades nextPlaylist playlists activePlaylist set_names].
  split.
  - intros target Htarget Hnone.
    rewrite (truthy_name_some target Htarget), Hnone.
    destruct (useFastFades self); reflexivity.
  - destruct (useFastFades self); reflexivity.
Qed.

(** *** A swap, rendered to its end *)

(** A swap without an intermediate playlist, outside the fast mode, runs
    to its end: after any number of frames that left the fade in place,
    the frame rendered when the fade time has passed since the start
    instant of the fade clears the fade and makes the target the active
    playlist. *)
Theorem swap_runs_to_its_end
    (self : Renderer) (key target : string) (p q : Playlist)
    (advanceAfterFadeOut : bool) (fadeTime : Q) :
  activePlaylist self = Some key ->
  key <> ""%string ->
  playlists self !! key = Some p ->
  target <> ""%string ->
  playlists self !! target = Some q ->
  useFastFades self = false ->
  GammaLayer.well_formed (gammaLayer self) = true ->
  0 < fadeTime ->
  exists r1,
    swapPlaylists self (Some target) None advanceAfterFadeOut fadeTime = ok r1 /\
    forall r2 model params frame t_enter t_now h,
      waiting r1 r2 ->
      fadeTime <= t_now - start_instant (fade_start r2) t_enter ->
      exists r3 out h',
        Renderer_render r2 model params frame t_enter t_now h = ok (r3, out, h') /\
        fade r3 = None /\
        activePlaylist r3 = Some target /\
        nextPlaylist r3 = None.
Proof.
  intros Hact Hkey Hp Htarget Hq Hfast Hg Hpos.
  exists (let r := set_fade (set_names self (Some key) (Some target))
                     (Some (LinearFade (Some (selection p)) (Some (selection q)) fadeTime)) in
          if advanceAfterFadeOut then advance_at advance r key else r).
  split.
  { unfold swapPlaylists, _active, _next, _get.
    rewrite Hact, (truthy_name_some key Hkey), Hp, rbind_ok.
    cbn [useFastFades nextPlaylist playlists activePlaylist set_names].
    rewrite Hfast, (truthy_name_some target Htarget), Hq.
    unfold selection_of. simpl truthy_name. cbv iota. rewrite !rbind_ok.
    cbn [activePlaylist set_fade set_names].
    destruct advanceAfterFadeOut; reflexivity. }
  cbv zeta.
  set (r := set_fade (set_names self (Some key) (Some target))
              (Some (LinearFade (Some (selection p)) (Some (selection q)) fadeTime))).
  set (r1 := if advanceAfterFadeOut then advance_at advance r key else r).
  assert (Hr1 : fade r1 = Some (Linear false (Some (selection p)) (Some (selection q))
                                  fadeTime None) /\
                nextPlaylist r1 = Some target /\
                gammaLayer r1 = gammaLayer self).
  { unfold r1, advance_at. destruct advanceAfterFadeOut; [|repeat split].
    destruct (playlists r !! key); repeat split. }
  destruct Hr1 as (Hf1 & Hn1 & Hg1).
  intros r2 model params frame t_enter t_now h Hw Htime.
  destruct (waiting_linear_fade r1 r2 _ _ _ _ _ Hw Hf1) as (d' & st' & Hf2).
  assert (Hne1 : fade r1 <> None) by (rewrite Hf1; discriminate).
  destruct (waiting_keeps_names r1 r2 Hw Hne1) as (_ & _ & Hn2).
  pose proof (waiting_keeps_gamma r1 r2 Hw) as Hg2.
  unfold fade_start in Htime. rewrite Hf2 in Htime.
  unfold Renderer_render. rewrite Hf2, Fade_render_Linear. cbv zeta.
  rewrite (render_scene_pair (Some (selection q))).
  rewrite (Qeq_bool_pos fadeTime Hpos).
  assert (Hdone : Qle_bool 1 ((t_now - start_instant st' t_enter) / fadeTime) = true).
  { apply Qle_bool_iff. apply Qle_shift_div_l; [exact Hpos|].
    rewrite Qmult_1_l. exact Htime. }
  rewrite Hdone, rbind_ok. simpl done. cbv iota.
  rewrite Hn2, Hn1, (truthy_name_some target Htarget), rbind_ok.
  cbn [gammaLayer set_fade set_names]. rewrite Hg2, Hg1.
  destruct (interp_frame_total
              (fst (render_scene (Some (selection q)) model params frame h))
              (gammaLayer self) Hg) as [out [Hout _]].
  rewrite Hout, rbind_ok.
  eexists. eexists. eexists. split; [reflexivity|]. repeat split.
Qed.

End EngineProperties.

(** ** GammaLayer *)

Module GammaProperties.
Import GammaLayer.

Lemma last_cons_default (a d : Q) (l : list Q) : List.last (a :: l) d = List.last l a.
Proof.
  revert a d. induction l as [|b l IH]; intros a d; [reflexivity|].
  change (List.last (a :: b :: l) d) with (List.last (b :: l) d).
  rewrite (IH b d), (IH b a). reflexivity.
Qed.

(** Past the last knot, [numpy.interp] returns the last value. *)
Lemma interp_from_past_knots (x : Q) (xp fp : list Q) (x0 y0 : Q) :
  length xp = length fp ->
  Forall (fun knot => knot <= x) xp ->
  interp_from x x0 y0 xp fp = List.last fp y0.
Proof.
  revert fp x0 y0. induction xp as [|x1 xp IH]; intros [|y1 fp] x0 y0 Hlen Hall;
    simpl in Hlen; try discriminate; [reflexivity|].
  inversion Hall as [|? ? H1 Hrest]; subst.
  cbn [interp_from].
  assert (E : Qltb x x1 = false) by (apply Qltb_ge; exact H1).
  rewrite E, IH by (try lia; assumption).
  symmetry. apply last_cons_default.
Qed.

Lemma knot_value (i : nat) :
  inject_Z (Z.of_nat i) / 100 == inject_Z (Z.of_nat i) * (1 # 100).
Proof. reflexivity. Qed.

Lemma knot_le (i j : nat) :
  (i <= j)%nat -> inject_Z (Z.of_nat i) / 100 <= inject_Z (Z.of_nat j) / 100.
Proof.
  intros H. unfold Qle, Qdiv, Qmult, Qinv, inject_Z. simpl. lia.
Qed.

Lemma knot_lt (i j : nat) :
  (i < j)%nat -> inject_Z (Z.of_nat i) / 100 < inject_Z (Z.of_nat j) / 100.
Proof.
  intros H. unfold Qlt, Qdiv, Qmult, Qinv, inject_Z. simpl. lia.
Qed.

Lemma knots_from (a n : nat) :
  List.map (fun i => inject_Z (Z.of_nat i) / 100) (seq a (S n)) =
  inject_Z (Z.of_nat a) / 100 ::
  List.map (fun i => inject_Z (Z.of_nat i) / 100) (seq (S a) n).
Proof. reflexivity. Qed.

Lemma knots_below (a n : nat) (x : Q) :
  inject_Z (Z.of_nat (a + n)) / 100 <= x ->
  Forall (fun knot => knot <= x)
    (List.map (fun i => inject_Z (Z.of_nat i) / 100) (seq a (S n))).
Proof.
  intros H. apply List.Forall_forall. intros k Hk.
  apply List.in_map_iff in Hk. destruct Hk as [i [<- Hi]].
  apply List.in_seq in Hi.
  eapply Qle_trans; [apply (knot_le i (a + n)); lia | exact H].
Qed.

(** The tables of [init]: a hundred knots, as many values. *)
Lemma init_tables (power : Q -> Q -> Q) (gamma : Q) :
  lutX (init power gamma) =
    inject_Z (Z.of_nat 0) / 100 ::
    List.map (fun i => inject_Z (Z.of_nat i) / 100) (seq 1 99) /\
  lutY (init power gamma) =
    power (inject_Z (Z.of_nat 0) / 100) gamma ::
    List.map (fun x => power x gamma)
      (List.map (fun i => inject_Z (Z.of_nat i) / 100) (seq 1 99)).
Proof. split; reflexivity. Qed.

(** The layer that [GammaLayer(gamma)] builds renders every frame without
    an exception and keeps its shape. *)
Theorem gamma_layer_renders (power : Q -> Q -> Q) (gamma : Q) (frame : Frame) :
  exists out,
    render (init power gamma) frame = ok out /\ length out = length frame.
Proof.
  apply interp_frame_total.
  unfold well_formed. destruct (init_tables power gamma) as [-> ->].
  rewrite !length_map. apply Nat.eqb_refl.
Qed.

(** The table ends at 0.99: every component of 0.99 or more is mapped to
    the one value [power 0.99 gamma], and every component of 0 or less to
    [power 0 gamma]. *)
Theorem gamma_saturates (power : Q -> Q -> Q) (gamma x : Q) :
  (inject_Z (Z.of_nat 99) / 100 <= x ->
   interp x (lutX (init power gamma)) (lutY (init power gamma)) =
     ok (power (inject_Z (Z.of_nat 99) / 100) gamma)) /\
  (x <= 0 ->
   interp x (lutX (init power gamma)) (lutY (init power gamma)) =
     ok (power (inject_Z (Z.of_nat 0) / 100) gamma)).
Proof.
  destruct (init_tables power gamma) as [-> ->]. unfold interp.
  rewrite !length_map, Nat.eqb_refl. split; intros H.
  - assert (E : Qle_bool x (inject_Z (Z.of_nat 0) / 100) = false).
    { destruct (Qle_bool x (inject_Z (Z.of_nat 0) / 100)) eqn:Eb; [|reflexivity].
      apply Qle_bool_iff in Eb. exfalso.
      assert (Hlt : inject_Z (Z.of_nat 0) / 100 < inject_Z (Z.of_nat 99) / 100)
        by (apply knot_lt; lia).
      apply (Qlt_irrefl x).
      eapply Qle_lt_trans; [exact Eb|]. eapply Qlt_le_trans; eassumption. }
    rewrite E. f_equal.
    rewrite interp_from_past_knots.
    + reflexivity.
    + rewrite !length_map. reflexivity.
    + apply (knots_below 1 98 x). exact H.
  - assert (E : Qle_bool x (inject_Z (Z.of_nat 0) / 100) = true).
    { apply Qle_bool_iff. eapply Qle_trans; [exact H|].
      unfold Qle. simpl. lia. }
    rewrite E. reflexivity.
Qed.

Lemma gamma_saturates_witness :
  interp 1 (lutX (init (fun x _ => x * x) 2)) (lutY (init (fun x _ => x * x) 2)) =
    ok ((fun x _ => x * x) (inject_Z (Z.of_nat 99) / 100) 2).
Proof.
  apply (proj1 (gamma_saturates (fun x _ => x * x) 2 1)).
  apply Qle_bool_iff. reflexivity.
Defined.

Lemma strictly_increasing_knots (a n : nat) :
  StronglySorted Qlt (List.map (fun i => inject_Z (Z.of_nat i) / 100) (seq a n)).
Proof.
  revert a. induction n as [|n IH]; intros a; [constructor|].
  rewrite knots_from. constructor; [apply IH|].
  apply List.Forall_forall. intros k Hk.
  apply List.in_map_iff in Hk. destruct Hk as [i [<- Hi]].
  apply List.in_seq in Hi. apply knot_lt. lia.
Qed.

(** Between knots of a table whose values are its knots, [numpy.interp]
    is the identity. *)
Lemma interp_from_identity (x : Q) (xp : list Q) (x0 : Q) :
  StronglySorted Qlt (x0 :: xp) ->
  x0 <= x ->
  x <= List.last xp x0 ->
  interp_from x x0 x0 xp xp == x.
Proof.
  revert x0. induction xp as [|x1 xp IH]; intros x0 Hs H0 H1.
  - simpl in *. apply Qle_antisym; assumption.
  - cbn [interp_from].
    apply StronglySorted_inv in Hs. destruct Hs as [Hs Hall].
    inversion Hall as [|? ? Hlt _]; subst.
    destruct (Qltb x x1) eqn:E.
    + assert (Hne : ~ x1 - x0 == 0).
      { intros Hz. apply (Qlt_irrefl x0).
        assert (Hx : x1 == x0) by (rewrite <- (Qplus_0_r x0), <- Hz; ring).
        rewrite <- Hx at 2. exact Hlt. }
      field. exact Hne.
    + apply IH; [exact Hs | apply Qltb_ge; exact E |].
      rewrite <- (last_cons_default x1 x0 xp). exact H1.
Qed.

(** With a gamma that leaves every value as it is (gamma = 1), the table
    is the identity on the range 0 to 0.99 of its knots. *)
Theorem gamma_one_is_identity (power : Q -> Q -> Q) (gamma x : Q) :
  (forall y, power y gamma = y) ->
  0 <= x ->
  x <= inject_Z (Z.of_nat 99) / 100 ->
  exists y,
    interp x (lutX (init power gamma)) (lutY (init power gamma)) = ok y /\
    y == x.
Proof.
  intros Hid H0 H1.
  destruct (init_tables power gamma) as [-> ->]. unfold interp.
  rewrite !length_map, Nat.eqb_refl. eexists. split; [reflexivity|].
  rewrite Hid.
  rewrite (List.map_ext (fun y => power y gamma) (fun y => y)) by exact Hid.
  rewrite List.map_id.
  destruct (Qle_bool x (inject_Z (Z.of_nat 0) / 100)) eqn:E.
  - apply Qle_bool_iff in E.
    apply Qle_antisym; [|exact E].
    eapply Qle_trans; [|exact H0]. unfold Qle. simpl. lia.
  - apply interp_from_identity.
    + rewrite <- knots_from. apply strictly_increasing_knots.
    + eapply Qle_trans; [|exact H0]. unfold Qle. simpl. lia.
    + exact H1.
Qed.

Lemma gamma_one_is_identity_witness :
  exists y,
    interp (1#3) (lutX (init (fun y _ => y) 1)) (lutY (init (fun y _ => y) 1)) = ok y /\
    y == 1#3.
Proof.
  apply (gamma_one_is_identity (fun y _ => y) 1 (1#3)).
  - reflexivity.
  - apply Qle_bool_iff. reflexivity.
  - apply Qle_bool_iff. reflexivity.
Defined.

End GammaProperties.

(** ** playlists.py *)

Module PlaylistsProperties.
Import Playlists.

(** As [random.random()] is less than one, every routine of the plasma
    playlist has three layers: the drifter it was made for, a plasma
    layer with a zoom from 0.2 up to 0.7, and a rain layer that drops
    every 2 up to 5 seconds; there is one routine for each drifter, in
    the order of the drifters, and the playlist is shuffled. *)
Theorem plasma_playlist_routines
    {Drifter : Type} (drifters : list Drifter) (random : nat -> Q) (n : nat) :
  (forall i, 0 <= random i /\ random i < 1) ->
  snd (make_plasma_playlist drifters random n) = true /\
  Forall2
    (fun d routine =>
       exists zoom dropEvery,
         routine = [Given d; PlasmaLayer zoom; RainLayer dropEvery] /\
         2#10 <= zoom /\ zoom < 7#10 /\
         2 <= dropEvery /\ dropEvery < 5)
    drifters (fst (make_plasma_playlist drifters random n)).
Proof.
  intros Hrand. split; [reflexivity|]. simpl fst.
  revert n. induction drifters as [|d rest IH]; intros n; cbn [routines].
  - constructor.
  - constructor; [|apply IH].
    destruct (Hrand n) as [H0 H1]. destruct (Hrand (S n)) as [_ H1'].
    apply Qltb_lt in H1'. rewrite H1'.
    eexists. eexists. split; [reflexivity|].
    unfold Qdiv. change (/ 2) with (1#2).
    repeat split; lra.
Qed.

Lemma plasma_playlist_routines_witness :
  snd (make_plasma_playlist [1%nat; 2%nat] (fun _ => 1#2) 0) = true /\
  Forall2
    (fun d routine =>
       exists zoom dropEvery,
         routine = [Given d; PlasmaLayer zoom; RainLayer dropEvery] /\
         2#10 <= zoom /\ zoom < 7#10 /\
         2 <= dropEvery /\ dropEvery < 5)
    [1%nat; 2%nat] (fst (make_plasma_playlist [1%nat; 2%nat] (fun _ => 1#2) 0)).
Proof.
  apply (plasma_playlist_routines [1%nat; 2%nat] (fun _ => 1#2) 0).
  intros i. split; [apply Qle_bool_iff|]; reflexivity.
Defined.

End PlaylistsProperties.

(** ** Layers that read the model *)

Module ModelLayersProperties.
Import Geometry.

Lemma stretch_same_length {A : Type} (n : nat) (l : list A) :
  length l = n -> stretch n l = ok l.
Proof. intros H. unfold stretch. rewrite H, Nat.eqb_refl. reflexivity. Qed.

Lemma stretch_length {A : Type} (n : nat) (l out : list A) :
  stretch n l = ok out -> length out = n.
Proof.
  unfold stretch. destruct (Nat.eqb (length l) n) eqn:E.
  - intros H. inversion H; subst. apply Nat.eqb_eq. exact E.
  - destruct l as [|c [|? ?]]; try discriminate.
    intros H. inversion H. apply repeat_length.
Qed.

(** [RGBLayer] overwrites the frame: what it leaves depends on the shape
    of the frame alone, not on what earlier layers drew, and rendering it
    again changes nothing. *)
Theorem rgb_layer_overwrites
    (model : Model) (params : EffectParameters) (frame out : Frame) :
  RGBLayer.render model params frame = ok out ->
  length out = length frame /\
  (forall other, length other = length frame ->
     RGBLayer.render model params other = ok out) /\
  RGBLayer.render model params out = ok out.
Proof.
  unfold RGBLayer.render. intros H.
  pose proof (stretch_length _ _ _ H) as Hlen.
  split; [exact Hlen|]. split.
  - intros other Ho. rewrite Ho. exact H.
  - rewrite Hlen. exact H.
Qed.

Lemma rgb_layer_overwrites_witness :
  length [(1, 0, 0); (0, 1, 0)] = length [(5, 5, 5); (7, 7, 7)] /\
  (forall other, length other = length [(5, 5, 5); (7, 7, 7)] ->
     RGBLayer.render {| model_ident := 1; edgeCenters := [(1, 0, 0); (0, 1, 0)] |}
       {| time := 0; targetFrameRate := 59; eeg := None |} other
     = ok [(1, 0, 0); (0, 1, 0)]) /\
  RGBLayer.render {| model_ident := 1; edgeCenters := [(1, 0, 0); (0, 1, 0)] |}
    {| time := 0; targetFrameRate := 59; eeg := None |} [(1, 0, 0); (0, 1, 0)]
  = ok [(1, 0, 0); (0, 1, 0)].
Proof.
  apply (rgb_layer_overwrites
           {| model_ident := 1; edgeCenters := [(1, 0, 0); (0, 1, 0)] |}
           {| time := 0; targetFrameRate := 59; eeg := None |}
           [(5, 5, 5); (7, 7, 7)] [(1, 0, 0); (0, 1, 0)]).
  reflexivity.
Defined.

Import PlasmaLayer.

Lemma zip3_length (xs ys zs : list Q) (n : nat) :
  length xs = n -> length ys = n -> length zs = n -> length (zip3 xs ys zs) = n.
Proof.
  revert ys zs n. induction xs as [|x xs IH]; intros [|y ys] [|z zs] n Hx Hy Hz;
    simpl in *; subst; try discriminate; [reflexivity|].
  f_equal. apply IH; lia.
Qed.

Lemma ufunc_same_length (pnoise3 : Q -> Q -> Q -> nat -> Q)
    (xs ys zs : list Q) (k n : nat) :
  length xs = n -> length ys = n -> length zs = n ->
  exists noise, ufunc pnoise3 xs ys zs k = ok noise /\ length noise = n.
Proof.
  intros Hx Hy Hz. unfold ufunc, broadcast_length.
  rewrite Hx, Hy, Hz, Nat.eqb_refl, rbind_ok, Nat.eqb_refl, rbind_ok.
  rewrite !stretch_same_length, !rbind_ok by assumption.
  eexists. split; [reflexivity|].
  rewrite length_map. apply zip3_length; assumption.
Qed.

(** A plasma layer that has cached no model renders a frame of the shape
    of the model without an exception, keeps the shape of the frame, and
    caches the model. *)
Theorem plasma_layer_renders
    (pnoise3 : Q -> Q -> Q -> nat -> Q) (self : t) (model : Model)
    (params : EffectParameters) (frame : Frame) :
  modelCache self = None ->
  length (edgeCenters model) = length frame ->
  exists self' out,
    render pnoise3 self model params frame = ok (self', out) /\
    length out = length frame /\
    modelCache self' = Some (model_ident model).
Proof.
  intros Hmiss Hlen. unfold render, cache_model. rewrite Hmiss. cbv zeta.
  cbn [scaledX scaledY scaledZ octaves color].
  destruct (ufunc_same_length pnoise3
              (List.map (fun '(x, _, _) => zoom self * x) (edgeCenters model))
              (List.map (fun '(_, y, _) => zoom self * y) (edgeCenters model))
              (List.map (fun z => z + fmod (time params * time_const self) 1024)
                 (List.map (fun '(_, _, z) => zoom self * z) (edgeCenters model)))
              (octaves self) (length frame)) as [noise [Hn Hnl]];
    try (rewrite !length_map; exact Hlen).
  rewrite Hn, rbind_ok. unfold with_column.
  rewrite stretch_same_length by (rewrite !length_map; exact Hnl).
  rewrite !rbind_ok.
  assert (Hc : forall (f : LED * Q -> LED),
            length (List.map f (combine frame
              (List.map (fun n => n * (12#10))
                 (List.map (fun n => n + (35#100)) noise)))) = length frame).
  { intros f. rewrite length_map, length_combine, !length_map, Hnl. lia. }
  destruct (color self) as [[[cr cg] cb]|]; eexists; eexists;
    (split; [reflexivity|]); (split; [apply Hc | reflexivity]).
Qed.

Lemma plasma_layer_renders_witness :
  exists self' out,
    render (fun x y z _ => x + y + z) (init None (6#10))
      {| model_ident := 1; edgeCenters := [(1, 0, 0); (0, 1, 0)] |}
      {| time := 2; targetFrameRate := 59; eeg := None |}
      [(1, 1, 1); (1, 1, 1)] = ok (self', out) /\
    length out = length [(1, 1, 1); (1, 1, 1)] /\
    modelCache self' = Some 1%nat.
Proof.
  apply (plasma_layer_renders (fun x y z _ => x + y + z) (init None (6#10))
           {| model_ident := 1; edgeCenters := [(1, 0, 0); (0, 1, 0)] |}
           {| time := 2; targetFrameRate := 59; eeg := None |}
           [(1, 1, 1); (1, 1, 1)]).
  - reflexivity.
  - reflexivity.
Defined.

(** A plasma layer without a colour scales what is in the frame: on a
    frame of zeros it leaves zeros, so it shows nothing as the first
    layer of a scene. *)
Theorem plasma_layer_modulates
    (pnoise3 : Q -> Q -> Q -> nat -> Q) (self self' : t) (model : Model)
    (params : EffectParameters) (frame out : Frame) :
  color self = None ->
  render pnoise3 self model params (frame_zeros frame) = ok (self', out) ->
  frame_eq out (frame_zeros frame).
Proof.
  intros Hc. unfold render. cbv zeta.
  assert (Hcc : color (cache_model self model) = color self).
  { unfold cache_model.
    destruct (modelCache self) as [i|]; [destruct (Nat.eqb i (model_ident model))|];
      reflexivity. }
  destruct (scaledX _) as [xs|]; [|discriminate].
  destruct (scaledY _) as [ys|]; [|discriminate].
  destruct (scaledZ _) as [zs|]; [|discriminate].
  destruct (ufunc _ _ _ _ _) as [e|noise]; [discriminate|]. rewrite rbind_ok.
  unfold with_column.
  destruct (stretch _ _) as [e|column] eqn:Es; [discriminate|].
  rewrite !rbind_ok, Hcc, Hc. intros H. inversion H; subst. clear H.
  pose proof (stretch_length _ _ _ Es) as Hl. clear Es.
  unfold frame_eq. revert column Hl.
  induction frame as [|a frame IH]; intros [|c column] Hl; simpl in Hl;
    try discriminate; simpl; constructor.
  - simpl. repeat split; ring.
  - apply IH. lia.
Qed.

Lemma plasma_layer_modulates_witness :
  frame_eq
    [(0 * (((6#10) * 0 + (6#10) * 0 + ((6#10) * 0 + PlasmaLayer.fmod (2 * - (3#2)) 1024) + (35#100)) * (12#10)),
      0 * (((6#10) * 0 + (6#10) * 0 + ((6#10) * 0 + PlasmaLayer.fmod (2 * - (3#2)) 1024) + (35#100)) * (12#10)),
      0 * (((6#10) * 0 + (6#10) * 0 + ((6#10) * 0 + PlasmaLayer.fmod (2 * - (3#2)) 1024) + (35#100)) * (12#10)))]
    (frame_zeros [(1, 1, 1)]).
Proof.
  apply (plasma_layer_modulates (fun x y z _ => x + y + z) (init None (6#10))
           (cache_model (init None (6#10)) {| model_ident := 1; edgeCenters := [(0, 0, 0)] |})
           {| model_ident := 1; edgeCenters := [(0, 0, 0)] |}
           {| time := 2; targetFrameRate := 59; eeg := None |}
           [(1, 1, 1)]).
  - reflexivity.
  - vm_compute. reflexivity.
Defined.

(** Once a plasma layer has rendered a model, it reads the positions of
    the LEDs from its cache: a change of [edgeCenters] on the same model
    object is not seen by later frames. *)
Theorem plasma_layer_cache_is_stale
    (pnoise3 : Q -> Q -> Q -> nat -> Q) (self self' : t) (model changed : Model)
    (params params' : EffectParameters) (frame frame' out : Frame) :
  render pnoise3 self model params frame = ok (self', out) ->
  model_ident changed = model_ident model ->
  render pnoise3 self' changed params' frame' = render pnoise3 self' model params' frame'.
Proof.
  intros Hr Hid.
  assert (Hcache : modelCache self' = Some (model_ident model)).
  { revert Hr. unfold render. cbv zeta.
    assert (Hc : modelCache (cache_model self model) = Some (model_ident model)).
    { unfold cache_model. destruct (modelCache self) as [i|] eqn:E; [|reflexivity].
      destruct (Nat.eqb i (model_ident model)) eqn:Ei; [|reflexivity].
      apply Nat.eqb_eq in Ei. rewrite E, Ei. reflexivity. }
    destruct (scaledX _) as [xs|]; [|discriminate].
    destruct (scaledY _) as [ys|]; [|discriminate].
    destruct (scaledZ _) as [zs|]; [|discriminate].
    destruct (ufunc _ _ _ _ _) as [e|noise]; [discriminate|]. rewrite rbind_ok.
    destruct (with_column _ _) as [e|rows]; [discriminate|]. rewrite rbind_ok.
    destruct (color _) as [[[cr cg] cb]|]; intros H; inversion H; subst; exact Hc. }
  assert (Hhit : forall m, model_ident m = model_ident model -> cache_model self' m = self').
  { intros m Hm. unfold cache_model. rewrite Hcache, Hm, Nat.eqb_refl. reflexivity. }
  unfold render. cbv zeta. rewrite (Hhit changed Hid), (Hhit model eq_refl). reflexivity.
Qed.

Lemma plasma_layer_cache_is_stale_witness :
  render (fun x y z _ => x + y + z)
    (cache_model (init None (6#10)) {| model_ident := 1; edgeCenters := [(0, 0, 0)] |})
    {| model_ident := 1; edgeCenters := [(9, 9, 9)] |}
    {| time := 3; targetFrameRate := 59; eeg := None |} [(1, 1, 1)] =
  render (fun x y z _ => x + y + z)
    (cache_model (init None (6#10)) {| model_ident := 1; edgeCenters := [(0, 0, 0)] |})
    {| model_ident := 1; edgeCenters := [(0, 0, 0)] |}
    {| time := 3; targetFrameRate := 59; eeg := None |} [(1, 1, 1)].
Proof.
  apply (plasma_layer_cache_is_stale (fun x y z _ => x + y + z) (init None (6#10))
           (cache_model (init None (6#10)) {| model_ident := 1; edgeCenters := [(0, 0, 0)] |})
           {| model_ident := 1; edgeCenters := [(0, 0, 0)] |}
           {| model_ident := 1; edgeCenters := [(9, 9, 9)] |}
           {| time := 2; targetFrameRate := 59; eeg := None |}
           {| time := 3; targetFrameRate := 59; eeg := None |}
           [(1, 1, 1)] [(1, 1, 1)]
           [(1 * (((6#10) * 0 + (6#10) * 0 + ((6#10) * 0 + PlasmaLayer.fmod (2 * - (3#2)) 1024) + (35#100)) * (12#10)),
             1 * (((6#10) * 0 + (6#10) * 0 + ((6#10) * 0 + PlasmaLayer.fmod (2 * - (3#2)) 1024) + (35#100)) * (12#10)),
             1 * (((6#10) * 0 + (6#10) * 0 + ((6#10) * 0 + PlasmaLayer.fmod (2 * - (3#2)) 1024) + (35#100)) * (12#10)))]).
  - vm_compute. reflexivity.
  - reflexivity.
Defined.

End ModelLayersProperties.

(** ** The installation *)

Module InstallationProperties.
Import Installation.

Example renderer0_from_init :
  Renderer_init power two_playlists (Some "A"%string) false 2 = ok renderer0.
Proof. vm_compute. reflexivity. Qed.

(** The scene of playlist A is rendered although its second layer fails:
    the white-out and the blinking layer both add one to every
    component, and the gamma table maps what exceeds 0.99 to 0.9801. *)
Example failing_layer_skipped :
  render_layers layer_render (selection A) tt params0 frame0 false
    = ([(0 + 1 + 1, 0 + 1 + 1, 0 + 1 + 1); ((1#2) + 1 + 1, 0 + 1 + 1, 0 + 1 + 1)], true) /\
  exists out,
    Renderer_render layer_render selection renderer0 tt params0 frame0 100 100 false
      = ok (renderer0, out, true) /\
    frame_eq out [(9801#10000, 9801#10000, 9801#10000);
                  (9801#10000, 9801#10000, 9801#10000)].
Proof.
  split; [vm_compute; reflexivity|].
  eexists. split; [vm_compute; reflexivity|].
  repeat constructor; vm_compute; reflexivity.
Qed.

Lemma C1_layer_failure_contained_witness :
  (exists out,
     GammaLayer.render (gammaLayer renderer0)
       (fst (render_layers layer_render (selection A) tt params0 frame0 false)) = ok out /\
     Renderer_render layer_render selection renderer0 tt params0 frame0 100 100 false =
       ok (renderer0, out,
           snd (render_layers layer_render (selection A) tt params0 frame0 false))) /\
  (forall before layer after f1 h1 h2,
     selection A = before ++ layer :: after ->
     render_layers layer_render before tt params0 frame0 false = (f1, h1) ->
     layer_render layer tt params0 f1 h1 = (h2, None) ->
     render_layers layer_render (selection A) tt params0 frame0 false =
       render_layers layer_render after tt params0 f1 h2).
Proof.
  apply (C1_layer_failure_contained layer_render selection renderer0 tt params0
           frame0 100 100 false "A"%string A).
  - reflexivity.
  - reflexivity.
  - discriminate.
  - vm_compute. reflexivity.
  - vm_compute. reflexivity.
Defined.



Example cross_fade_at_the_end :
  Fade_render layer_render cross_fade tt params0 frame0 (102 + (1#2)) (102 + (1#2)) false
  = ok (Linear true (Some [WhiteOutLayer]) (Some [BlinkyLayer]) 2 (Some 100),
        [(0 + 1, 0 + 1, 0 + 1); ((1#2) + 1, 0 + 1, 0 + 1)], true).
Proof. vm_compute. reflexivity. Qed.

Lemma C5_linear_fade_blend_witness :
  exists out,
    Fade_render layer_render cross_fade tt params0 frame0 (100 + (1#2)) (100 + (1#2)) false =
    ok (Linear false (Some [WhiteOutLayer]) (Some [BlinkyLayer]) 2
          (Some (start_instant (Some 100) (100 + (1#2)))), out,
        snd (render_scene layer_render (Some [WhiteOutLayer]) tt params0
               (frame_zeros
                  (fst (render_scene layer_render (Some [BlinkyLayer]) tt params0 frame0 false)))
               (snd (render_scene layer_render (Some [BlinkyLayer]) tt params0 frame0 false)))) /\
    frame_eq out
      (frame_add
         (frame_scale ((100 + (1#2) - start_instant (Some 100) (100 + (1#2))) / 2)
            (fst (render_scene layer_render (Some [BlinkyLayer]) tt params0 frame0 false)))
         (frame_scale (1 - (100 + (1#2) - start_instant (Some 100) (100 + (1#2))) / 2)
            (fst (render_scene layer_render (Some [WhiteOutLayer]) tt params0
                    (frame_zeros
                       (fst (render_scene layer_render (Some [BlinkyLayer]) tt params0
                               frame0 false)))
                    (snd (render_scene layer_render (Some [BlinkyLayer]) tt params0
                            frame0 false)))))) /\
    (100 + (1#2) - start_instant (Some 100) (100 + (1#2))) / 2 ==
      Qmax 0 (Qmin ((100 + (1#2) - start_instant (Some 100) (100 + (1#2))) / 2) 1) /\
    (100 + (1#2) - start_instant (Some 100) (100 + (1#2))) / 2 +
      (1 - (100 + (1#2) - start_instant (Some 100) (100 + (1#2))) / 2) == 1.
Proof.
  apply (C5_linear_fade_blend layer_render false (Some [WhiteOutLayer])
           (Some [BlinkyLayer]) 2 (Some 100) tt params0 frame0
           (100 + (1#2)) (100 + (1#2)) false).
  - apply Qle_bool_iff. vm_compute. reflexivity.
  - reflexivity.
Defined.

(** A quarter of the way through, the frame is a quarter of the end scene
    and three quarters of the start scene. *)
Example cross_fade_at_a_quarter :
  exists out,
    Fade_render layer_render cross_fade tt params0 frame0 (100 + (1#2)) (100 + (1#2)) false
    = ok (cross_fade, out, true) /\
    frame_eq out
      (frame_add (frame_scale (1#4) [(1, 1, 1); (3#2, 1, 1)])
                 (frame_scale (3#4) [(1, 1, 1); (1, 1, 1)])).
Proof.
  eexists. split; [vm_compute; reflexivity|].
  repeat constructor; vm_compute; reflexivity.
Qed.

Lemma fast0_rendered : rendered layer_render fast0 fast3.
Proof.
  apply (rendered_call layer_render fast0 fast2 fast3 tt params0 frame0
           (101 + (1#2)) (101 + (1#2)) false
           (frame_scale ((101 + (1#2) - (101 + (1#2))) / (2 / 2)) [(0 + 1, 0 + 1, 0 + 1); ((1#2) + 1, 0 + 1, 0 + 1)])
           true).
  - apply (rendered_call layer_render fast0 fast1 fast2 tt params0 frame0
             101 101 false frame0 false).
    + apply (rendered_call layer_render fast0 fast0 fast1 tt params0 frame0
               100 100 false
               (frame_add (frame_scale ((100 - 100) / (2 / 2)) frame0)
                  (frame_scale (1 - (100 - 100) / (2 / 2))
                     [(0 + 1, 0 + 1, 0 + 1); (0 + 1, 0 + 1, 0 + 1)]))
               false).
      * apply rendered_none.
      * vm_compute. reflexivity.
    + vm_compute. reflexivity.
  - vm_compute. reflexivity.
Qed.

Lemma C6_two_step_fade_witness :
  exists d startLayers endLayers fade1 fade2,
    fast3 = TwoStep d startLayers endLayers fade1 fade2 /\
    (done fast3 = true <-> done fade2 = true) /\
    (done fast3 = true -> done fade1 = true) /\
    forall (model : unit) params frame t_enter t_now h,
      (done fade1 = false ->
       Fade_render layer_render fast3 model params frame t_enter t_now h =
       try! (fade1', frame', h') :=
         Fade_render layer_render fade1 model params frame t_enter t_now h in
       ok (TwoStep d startLayers endLayers fade1' fade2, frame', h')) /\
      (done fade1 = true ->
       Fade_render layer_render fast3 model params frame t_enter t_now h =
       try! (fade2', frame', h') :=
         Fade_render layer_render fade2 model params frame t_enter t_now h in
       ok (TwoStep (done fade2') startLayers endLayers fade1 fade2', frame', h')).
Proof.
  apply (C6_two_step_fade layer_render fast0 fast3).
  - apply fresh_FastFade.
  - exact fast0_rendered.
Defined.

(** The three calls: the first two go to the fade-out alone, the third to
    the fade-in alone, and the fast fade is not done. *)
Example fast_fade_steps :
  fast1 = TwoStep false (Some [WhiteOutLayer]) (Some [BlinkyLayer])
            (Linear false (Some [WhiteOutLayer]) None (2 / 2) (Some 100))
            (Linear false None (Some [BlinkyLayer]) (2 / 2) None) /\
  fast2 = TwoStep false (Some [WhiteOutLayer]) (Some [BlinkyLayer])
            (Linear true (Some [WhiteOutLayer]) None (2 / 2) (Some 100))
            (Linear false None (Some [BlinkyLayer]) (2 / 2) None) /\
  fast3 = TwoStep false (Some [WhiteOutLayer]) (Some [BlinkyLayer])
            (Linear true (Some [WhiteOutLayer]) None (2 / 2) (Some 100))
            (Linear false None (Some [BlinkyLayer]) (2 / 2) (Some (101 + (1#2)))).
Proof. repeat split; vm_compute; reflexivity. Qed.

Example swapped_state :
  activePlaylist swapped = Some "A"%string /\
  nextPlaylist swapped = Some "B"%string /\
  playlists swapped !! "A"%string = Some (advance A) /\
  fade swapped = Some (LinearFade (Some (selection A)) (Some (selection B)) 2).
Proof. repeat split; vm_compute; reflexivity. Qed.

Lemma C7_done_fade_retired_witness :
  exists self' out,
    Renderer_render layer_render selection swapping tt params0 frame0 102 102 false
      = ok (self', out, false) /\
    GammaLayer.render (gammaLayer swapping) [(0 + 1, 0 + 1, 0 + 1); ((1#2) + 1, 0 + 1, 0 + 1)]
      = ok out /\
    fade self' = None /\
    playlists self' = playlists swapping /\
    (forall name,
       nextPlaylist swapping = Some name -> name <> ""%string ->
       activePlaylist self' = Some name /\ nextPlaylist self' = None) /\
    (truthy_name (nextPlaylist swapping) = false ->
     activePlaylist self' = activePlaylist swapping /\
     nextPlaylist self' = nextPlaylist swapping).
Proof.
  apply (C7_done_fade_retired layer_render selection swapping
           (Linear false (Some (selection A)) (Some (selection B)) 2 (Some 100))
           (Linear true (Some (selection A)) (Some (selection B)) 2 (Some 100))
           tt params0 frame0 [(0 + 1, 0 + 1, 0 + 1); ((1#2) + 1, 0 + 1, 0 + 1)]
           102 102 false false).
  - reflexivity.
  - vm_compute. reflexivity.
  - reflexivity.
  - vm_compute. reflexivity.
Defined.

Example swap_committed :
  exists self' out,
    Renderer_render layer_render selection swapping tt params0 frame0 102 102 false
      = ok (self', out, false) /\
    activePlaylist self' = Some "B"%string /\
    nextPlaylist self' = None /\
    fade self' = None.
Proof. eexists. eexists. repeat split; vm_compute; reflexivity. Qed.

Lemma C10_stale_pending_committed_witness :
  exists self1 self3 frame' h',
    advanceCurrentPlaylist selection advance swapped 1 = ok self1 /\
    fade self1 =
      Some (LinearFade (Some (selection (advance A)))
              (Some (selection (advance (advance A)))) 1) /\
    activePlaylist self1 = Some "A"%string /\
    nextPlaylist self1 = Some "B"%string /\
    Renderer_render layer_render selection self1 tt params0 frame0 100 101 false
      = ok (self3, frame', h') /\
    fade self3 = None /\
    activePlaylist self3 = Some "B"%string /\
    nextPlaylist self3 = None.
Proof.
  destruct (C10_stale_pending_committed layer_render selection advance swapped 1
              "A"%string "B"%string (advance A))
    as (self1 & Hadv & Hf & Ha & Hn & _ & Hcompletes).
  - vm_compute. reflexivity.
  - discriminate.
  - vm_compute. reflexivity.
  - vm_compute. reflexivity.
  - discriminate.
  - reflexivity.
  - vm_compute. reflexivity.
  - destruct (Hcompletes self1 tt params0 frame0 100 101 false)
      as (self3 & frame' & h' & Hr & Hnone & Ha3 & Hn3).
    + apply waiting_none.
    + unfold fade_start. rewrite Hf. apply Qle_bool_iff. vm_compute. reflexivity.
    + exists self1, self3, frame', h'. repeat split; assumption.
Defined.

Example stale_pending_scenario :
  exists r2 r3,
    swap_then_advance = ok (r2, r3) /\
    activePlaylist r2 = Some "A"%string /\
    nextPlaylist r2 = Some "B"%string /\
    fade r2 = Some (Linear false (Some [BlinkyLayer])
                      (Some [WhiteOutLayer; EffectLayer; BlinkyLayer]) 1 (Some 100)) /\
    activePlaylist r3 = Some "B"%string /\
    nextPlaylist r3 = None /\
    fade r3 = None.
Proof. eexists. eexists. repeat split; vm_compute; reflexivity. Qed.

(** *** Witnesses of the further properties *)

Lemma multiplier_ignores_frame_witness :
  exists h',
    (MultiplierLayer_render layer_render WhiteOutLayer BlinkyLayer tt params0 frame0 false
       = (h', None) /\
     MultiplierLayer_render layer_render WhiteOutLayer BlinkyLayer tt params0 frame1 false
       = (h', None)) \/
    (exists product,
       MultiplierLayer_render layer_render WhiteOutLayer BlinkyLayer tt params0 frame0 false
         = (h', Some (frame_add frame0 product)) /\
       MultiplierLayer_render layer_render WhiteOutLayer BlinkyLayer tt params0 frame1 false
         = (h', Some (frame_add frame1 product))).
Proof.
  apply (multiplier_ignores_frame layer_render WhiteOutLayer BlinkyLayer tt params0
           frame0 frame1 false).
  reflexivity.
Defined.

Lemma done_fade_stays_done_witness :
  coherent fast3 /\ (done fast2 = true -> done fast3 = true).
Proof.
  apply (done_fade_stays_done layer_render fast2 fast3 tt params0 frame0
           (frame_scale ((101 + (1#2) - (101 + (1#2))) / (2 / 2))
              [(0 + 1, 0 + 1, 0 + 1); ((1#2) + 1, 0 + 1, 0 + 1)])
           (101 + (1#2)) (101 + (1#2)) false true).
  - vm_compute. repeat split.
  - vm_compute. reflexivity.
Defined.

Lemma fast_fade_one_scene_per_call_witness :
  exists d d1 s1 d2 s2,
    fast3 = TwoStep d (Some [WhiteOutLayer]) (Some [BlinkyLayer])
              (Linear d1 (Some [WhiteOutLayer]) None (2 / 2) s1)
              (Linear d2 None (Some [BlinkyLayer]) (2 / 2) s2) /\
    forall (model : unit) params frame t_enter t_now h,
      (d1 = false ->
       forall other,
         frame_and_heap (Fade_render layer_render fast3 model params frame t_enter t_now h) =
         frame_and_heap
           (Fade_render layer_render
              (TwoStep d (Some [WhiteOutLayer]) other
                 (Linear d1 (Some [WhiteOutLayer]) None (2 / 2) s1)
                 (Linear d2 None other (2 / 2) s2))
              model params frame t_enter t_now h)) /\
      (d1 = true ->
       forall other,
         frame_and_heap (Fade_render layer_render fast3 model params frame t_enter t_now h) =
         frame_and_heap
           (Fade_render layer_render
              (TwoStep d other (Some [BlinkyLayer])
                 (Linear d1 other None (2 / 2) s1)
                 (Linear d2 None (Some [BlinkyLayer]) (2 / 2) s2))
              model params frame t_enter t_now h)).
Proof.
  apply (fast_fade_one_scene_per_call layer_render
           (Some [WhiteOutLayer]) (Some [BlinkyLayer]) 2 fast3).
  exact fast0_rendered.
Defined.

Lemma zero_fade_time_raises_witness :
  exists self1,
    advanceCurrentPlaylist selection advance renderer0 0 = ok self1 /\
    Renderer_render layer_render selection self1 tt params0 frame0 100 100 false
      = raise ZeroDivisionError.
Proof.
  apply (zero_fade_time_raises layer_render selection advance renderer0 0
           "A"%string A tt params0 frame0 100 100 false).
  - reflexivity.
  - discriminate.
  - vm_compute. reflexivity.
  - reflexivity.
Defined.

Lemma Renderer_init_cases_witness :
  exists name p,
    ({["solo"%string := A]} : gmap string playlist) !! name = Some p /\
    Renderer_init (Layer := layer) power {["solo"%string := A]} None true 2 =
      ok {| playlists := {["solo"%string := A]}; activePlaylist := Some name;
            nextPlaylist := None; useFastFades := true; fade := None;
            gammaLayer := GammaLayer.init power 2 |}.
Proof.
  apply (Renderer_init_cases (Layer := layer) power {["solo"%string := A]} None true 2).
  - apply map_size_singleton.
  - reflexivity.
Defined.

Lemma swapping_renders : renders layer_render selection swapping swap_done.
Proof.
  apply (renders_call layer_render selection swapping swapping swap_done
           tt params0 frame0 102 102 false
           [(9801#10000, 9801#10000, 9801#10000);
            (9801#10000, 9801#10000, 9801#10000)] false).
  - apply renders_none.
  - vm_compute. reflexivity.
Qed.

Lemma render_keeps_configuration_witness :
  playlists swap_done = playlists swapping /\
  useFastFades swap_done = useFastFades swapping /\
  gammaLayer swap_done = gammaLayer swapping.
Proof.
  apply (render_keeps_configuration layer_render selection swapping swap_done).
  exact swapping_renders.
Defined.

Lemma render_without_playlist_witness :
  (truthy_name (activePlaylist (set_names renderer0 None None)) = false ->
   Renderer_render layer_render selection (set_names renderer0 None None)
     tt params0 frame0 100 100 false =
     try! out := GammaLayer.render (gammaLayer (set_names renderer0 None None)) frame0 in
     ok (set_names renderer0 None None, out, false)) /\
  (forall key,
     activePlaylist (set_names renderer0 None None) = Some key -> key <> ""%string ->
     playlists (set_names renderer0 None None) !! key = None ->
     Renderer_render layer_render selection (set_names renderer0 None None)
       tt params0 frame0 100 100 false = raise (KeyError key)).
Proof.
  apply (render_without_playlist layer_render selection (set_names renderer0 None None)
           tt params0 frame0 100 100 false).
  reflexivity.
Defined.

(** A renderer built with an active name that no playlist has: the
    constructor accepts it and the first frame raises KeyError. *)
Example unknown_active_name :
  exists r,
    Renderer_init (Layer := layer) power two_playlists (Some "C"%string) false 2 = ok r /\
    Renderer_render layer_render selection r tt params0 frame0 100 100 false
      = raise (KeyError "C").
Proof. eexists. split; vm_compute; reflexivity. Qed.

Lemma advanceCurrentPlaylist_cases_witness :
  exists self1,
    advanceCurrentPlaylist selection advance swapping 1 = ok self1 /\
    playlists self1 !! "A"%string = Some (advance (advance A)) /\
    activePlaylist self1 = Some "A"%string /\
    nextPlaylist self1 = nextPlaylist swapping /\
    useFastFades self1 = useFastFades swapping /\
    gammaLayer self1 = gammaLayer swapping /\
    fade self1 =
      Some (Linear false (Some (selection (advance A)))
              (Some (selection (advance (advance A)))) 1 None).
Proof.
  apply (advanceCurrentPlaylist_cases selection advance swapping 1).
  - reflexivity.
  - discriminate.
  - vm_compute. reflexivity.
Defined.

Lemma fade_time_is_longest_witness :
  exists m,
    _fadeTimeForTransition transition_times selection A = ok m /\
    (exists layer, In layer (selection A) /\ m = transition_times layer) /\
    (forall layer, In layer (selection A) -> transition_times layer <= m).
Proof.
  apply (fade_time_is_longest selection transition_times A).
  discriminate.
Defined.

Lemma swapPlaylists_direct_witness :
  exists r,
    swapPlaylists transition_times selection advance renderer0
      (Some "B"%string) None true 2 = ok r /\
    activePlaylist r = Some "A"%string /\
    nextPlaylist r = Some "B"%string /\
    useFastFades r = useFastFades renderer0 /\
    gammaLayer r = gammaLayer renderer0 /\
    fade r =
      Some (if useFastFades renderer0
            then FastFade (Some (selection A)) (Some (selection B)) 2
            else LinearFade (Some (selection A)) (Some (selection B)) 2) /\
    playlists r !! "A"%string = Some (advance A).
Proof.
  apply (swapPlaylists_direct selection advance transition_times renderer0
           "A"%string "B"%string A B None true 2).
  - reflexivity.
  - discriminate.
  - vm_compute. reflexivity.
  - discriminate.
  - vm_compute. reflexivity.
  - right. reflexivity.
Defined.

Lemma swapPlaylists_through_witness :
  exists r,
    swapPlaylists transition_times selection advance renderer0
      (Some "B"%string) (Some "B"%string) true 2 = ok r /\
    fade r =
      Some (TwoStepLinearFade (Some (selection A)) (Some (selection B))
              (Some (selection B)) (1#4) (transition_times WhiteOutLayer)) /\
    playlists r !! "A"%string = Some (advance A) /\
    playlists r !! "B"%string = Some (advance B).
Proof.
  destruct (swapPlaylists_through selection advance transition_times renderer0
              "A"%string "B"%string "B"%string A B B true 2
              (transition_times WhiteOutLayer))
    as (r & Hr & _ & _ & _ & _ & Hf & _ & Hdistinct).
  - reflexivity.
  - discriminate.
  - vm_compute. reflexivity.
  - discriminate.
  - vm_compute. reflexivity.
  - discriminate.
  - vm_compute. reflexivity.
  - vm_compute. reflexivity.
  - reflexivity.
  - destruct Hdistinct as [Ha Hb]; [discriminate|].
    exists r. repeat split; assumption.
Defined.

(** From playlist A through A itself to B: A is advanced twice. *)
Example active_as_intermediate :
  exists r,
    swapPlaylists transition_times selection advance renderer0
      (Some "B"%string) (Some "A"%string) true 2 = ok r /\
    playlists r !! "A"%string = Some (advance (advance A)) /\
    playlists r !! "B"%string = Some B.
Proof. eexists. repeat split; vm_compute; reflexivity. Qed.

Lemma swapPlaylists_bad_target_witness :
  (forall target,
     target <> ""%string -> playlists renderer0 !! target = None ->
     swapPlaylists transition_times selection advance renderer0 (Some target) None true 2
       = raise (KeyError target)) /\
  swapPlaylists transition_times selection advance renderer0 None None true 2
    = raise (AttributeError "selection").
Proof.
  apply (swapPlaylists_bad_target selection advance transition_times renderer0
           "A"%string A true 2).
  - reflexivity.
  - discriminate.
  - vm_compute. reflexivity.
Defined.

Lemma swap_runs_to_its_end_witness :
  exists r1,
    swapPlaylists transition_times selection advance renderer0 (Some "B"%string) None true 2
      = ok r1 /\
    forall r2 (model : unit) params frame t_enter t_now (h : heap),
      waiting layer_render selection r1 r2 ->
      2 <= t_now - start_instant (fade_start r2) t_enter ->
      exists r3 out h',
        Renderer_render layer_render selection r2 model params frame t_enter t_now h
          = ok (r3, out, h') /\
        fade r3 = None /\
        activePlaylist r3 = Some "B"%string /\
        nextPlaylist r3 = None.
Proof.
  apply (swap_runs_to_its_end layer_render selection advance transition_times renderer0
           "A"%string "B"%string A B true 2).
  - reflexivity.
  - discriminate.
  - vm_compute. reflexivity.
  - discriminate.
  - vm_compute. reflexivity.
  - reflexivity.
  - vm_compute. reflexivity.
  - reflexivity.
Defined.

(** *** BlinkyLayer *)

(** Two frames of a blinking layer add one to every component between
    them, and leave its [on] flag as it was. *)
Theorem blinky_two_frames
    (model : unit) (params : EffectParameters) (frame : Frame) (on : heap) :
  exists f1 f2,
    layer_render BlinkyLayer model params frame on = (negb on, Some f1) /\
    layer_render BlinkyLayer model params f1 (negb on) = (on, Some f2) /\
    frame_eq f2 (frame_add frame (List.map (fun _ => (1, 1, 1)) frame)).
Proof.
  destruct on; (eexists; eexists; split; [reflexivity|]; split; [reflexivity|]);
    unfold frame_eq; induction frame as [|[[r g] b] rest IH]; simpl; constructor;
    try exact IH; simpl; repeat split; ring.
Qed.

End InstallationProperties.
